(** * House Rental API: a shallow embedding of [main.py] and [schemas.py]

    The request handlers of [main.py] are embedded as functions in a small
    state-and-exception monad over a [world] made of the document store
    ([db], three collections) and the upload directory (a map from file
    paths to bytes).  The libraries the handlers call are modelled next to
    them, each from its documented behaviour:

    - [bson.ObjectId]: construction from a string ([ObjectId_of_str]) and
      [str] ([str_ObjectId]);
    - [pymongo]: [find], [find_one], [insert_one], [update_one] with
      [$set], [delete_one], on exactly the query shapes [main.py] builds;
    - the store's regular expressions: the fragment of PCRE described at
      [parse_loop]; a pattern outside the fragment gives [Unmodelled];
    - [passlib]'s [CryptContext.verify]: hash identification is modelled,
      the bcrypt computation itself is a parameter;
    - [os.path.join] (POSIX) and [open(path, "wb")], which the host may
      refuse: whether a path can be opened is a parameter ([may_open]);
    - the driver's encoder: an [int] outside 8 bytes cannot be sent to the
      store ([OverflowError]).

    Handlers take the values FastAPI hands them after coercion ([str],
    [float], [int], an optional upload, a validated [ContactMessage]).
    A Python [str] is a [string] whose characters are the code points
    below 256.  The 16 MiB size limit of a stored document is not
    modelled. *)

From Stdlib Require Import Strings.Ascii Strings.String Strings.Byte NArith ZArith Floats.
From stdpp Require Import gmap strings list pretty.

Local Open Scope string_scope.
Local Open Scope list_scope.

(** ** Characters *)

Definition code (c : ascii) : N := N_of_ascii c.

Definition in_range (lo hi n : N) : bool := ((lo <=? n) && (n <=? hi))%N.

(** [Py_ISSPACE]: tab, line feed, vertical tab, form feed, carriage return,
    space. *)
Definition Py_ISSPACE (c : ascii) : bool :=
  in_range 9 13 (code c) || (code c =? 32)%N.

(** The value of a hexadecimal digit, as [bytes.fromhex] reads it. *)
Definition hex_value (c : ascii) : option N :=
  let n := code c in
  if in_range 48 57 n then Some (n - 48)%N
  else if in_range 97 102 n then Some (n - 87)%N
  else if in_range 65 70 n then Some (n - 55)%N
  else None.

Definition hex_char (n : N) : ascii :=
  if (n <? 10)%N then ascii_of_N (48 + n) else ascii_of_N (87 + n).

(** Case folding, the comparison a caseless match uses: the letters A-Z
    and, above the ASCII range, the code points 192-222 but the
    multiplication sign (215) have their lower case 32 further.  The other
    code points below 256 have no other case below 256. *)
Definition lower (c : ascii) : ascii :=
  let n := code c in
  if in_range 65 90 n || (in_range 192 222 n && negb (n =? 215)%N)
  then ascii_of_N (n + 32)
  else c.

Definition ci_eqb (caseless : bool) (a b : ascii) : bool :=
  if caseless then Ascii.eqb (lower a) (lower b) else Ascii.eqb a b.

(** ** bson.ObjectId *)

(** An [ObjectId] is its binary value. *)
Definition ObjectId := list byte.

Definition byte_of_nibbles (hi lo : N) : byte :=
  byte_of_ascii (ascii_of_N (16 * hi + lo)).

(** [bytes.fromhex]: ASCII whitespace is skipped between bytes, each byte
    is two hexadecimal digits; [None] stands for [ValueError]. *)
Fixpoint bytes_fromhex (s : list ascii) : option (list byte) :=
  match s with
  | [] => Some []
  | c :: s' =>
      if Py_ISSPACE c then bytes_fromhex s'
      else
        match hex_value c, s' with
        | Some hi, d :: s'' =>
            match hex_value d with
            | Some lo => cons (byte_of_nibbles hi lo) <$> bytes_fromhex s''
            | None => None
            end
        | _, _ => None
        end
  end.

(** [ObjectId(oid)] for a [str] argument: [None] stands for [InvalidId]. *)
Definition ObjectId_of_str (oid : string) : option ObjectId :=
  if (String.length oid =? 24)%nat
  then bytes_fromhex (list_ascii_of_string oid)
  else None.

Fixpoint hexlify (bs : list byte) : list ascii :=
  match bs with
  | [] => []
  | b :: bs' =>
      let n := code (ascii_of_byte b) in
      hex_char (n / 16)%N :: hex_char (n mod 16)%N :: hexlify bs'
  end.

(** [str(oid)] *)
Definition str_ObjectId (o : ObjectId) : string :=
  string_of_list_ascii (hexlify o).

Definition ObjectId_eqb (a b : ObjectId) : bool :=
  bool_decide (Byte.to_N <$> a = Byte.to_N <$> b).

(** ** Documents *)

(** The values the handlers put in a document or a response. *)
Inductive value :=
  | VNone
  | VBool (b : bool)
  | VInt (z : Z)
  | VFloat (x : float)
  | VStr (s : string)
  | VObjectId (o : ObjectId)
  | VDatetime (t : Z).

(** A Python [dict] with [str] keys. *)
Abbreviation dict := (gmap string value).

(** A stored document: the store keeps an [_id] for every document; the
    other fields are those of the inserted [dict]. *)
Record document := Document { _id : ObjectId; fields : dict }.

Abbreviation collection := (list document).

(** The [dict] the driver returns for a stored document. *)
Definition to_dict (d : document) : dict :=
  <["_id" := VObjectId (_id d)]> (fields d).

(** [not doc] for the result of [find_one]: [None] and the empty [dict]
    are falsy. *)
Definition falsy (doc : option dict) : bool :=
  match doc with
  | None => true
  | Some d => Nat.eqb (size d) 0
  end.

Example ObjectId_valid :
  ObjectId_of_str "0123456789abcdefABCDEF00" <> None.
Proof. vm_compute. discriminate. Qed.

Example ObjectId_str_roundtrip :
  str_ObjectId <$> ObjectId_of_str "0123456789abcdefABCDEF00"
  = Some "0123456789abcdefabcdef00".
Proof. vm_compute. reflexivity. Qed.

Example ObjectId_short : ObjectId_of_str "P-001" = None.
Proof. reflexivity. Qed.

(** ** Regular expressions of the store

    The store matches [$regex] patterns with PCRE in its UTF mode.  The
    model covers the patterns built from literals, [.], the quantifiers
    [*], [+], [?], alternation and capturing groups, and a backslash
    before a character that is neither an ASCII letter nor a digit.  The
    store refuses a pattern with a NUL character in it. *)

Inductive regex :=
  | Void
  | Eps
  | Chr (c : ascii)
  | Dot
  | Cat (r1 r2 : regex)
  | Alt (r1 r2 : regex)
  | Star (r : regex).

(** What compiling a pattern gives: a regex, a compile error of the store,
    or a pattern outside the modelled fragment. *)
Inductive pattern :=
  | Compiled (r : regex)
  | BadPattern
  | UnmodelledPattern.

(** One open group while parsing: its finished alternatives and the items
    of the alternative being read, latest first. *)
Record frame := Frame { alts : list regex; items : list regex }.

Definition empty_frame : frame := Frame [] [].

Definition push_item (r : regex) (f : frame) : frame :=
  Frame (alts f) (r :: items f).

Definition cat_of (its : list regex) : regex :=
  fold_left (fun acc r => Cat r acc) its Eps.

Definition close_frame (f : frame) : regex :=
  fold_left (fun acc r => Alt r acc) (alts f) (cat_of (items f)).

Definition next_alt (f : frame) : frame :=
  Frame (cat_of (items f) :: alts f) [].

Definition is_char (c : ascii) (s : string) : bool :=
  existsb (Ascii.eqb c) (list_ascii_of_string s).

Definition quantify (q : ascii) (r : regex) : regex :=
  if is_char q "*" then Star r
  else if is_char q "+" then Cat r (Star r)
  else Alt r Eps.

Definition alnum (c : ascii) : bool :=
  in_range 48 57 (code c) || in_range 65 90 (code c)
  || in_range 97 122 (code c).

(** Characters that stand for themselves in a pattern. *)
Definition literal_char (c : ascii) : bool :=
  negb (code c =? 0)%N && negb (is_char c "\^$.|?*+()[{").

(** The parser: [stack] holds the enclosing groups, [cur] the group being
    read, [quantified] tells that the last item already carries a
    quantifier (a second one makes it lazy or possessive: not modelled). *)
Fixpoint parse_loop (stack : list frame) (cur : frame) (quantified : bool)
    (s : list ascii) : pattern :=
  match s with
  | [] =>
      match stack with
      | [] => Compiled (close_frame cur)
      | _ :: _ => BadPattern
      end
  | c :: s' =>
      if is_char c "(" then
        match s' with
        | n :: _ =>
            if is_char n "?*" then UnmodelledPattern
            else parse_loop (cur :: stack) empty_frame false s'
        | [] => parse_loop (cur :: stack) empty_frame false s'
        end
      else if is_char c ")" then
        match stack with
        | [] => BadPattern
        | parent :: stack' =>
            parse_loop stack' (push_item (close_frame cur) parent) false s'
        end
      else if is_char c "|" then parse_loop stack (next_alt cur) false s'
      else if is_char c "*+?" then
        if quantified then UnmodelledPattern
        else
          match items cur with
          | [] => BadPattern
          | r :: its =>
              parse_loop stack (Frame (alts cur) (quantify c r :: its)) true s'
          end
      else if is_char c "." then parse_loop stack (push_item Dot cur) false s'
      else if is_char c "\" then
        match s' with
        | [] => BadPattern
        | e :: s'' =>
            if negb (code e =? 0)%N && negb (alnum e)
            then parse_loop stack (push_item (Chr e) cur) false s''
            else UnmodelledPattern
        end
      else if literal_char c
      then parse_loop stack (push_item (Chr c) cur) false s'
      else UnmodelledPattern
  end.

Definition compile (pat : string) : pattern :=
  let s := list_ascii_of_string pat in
  if existsb (fun c => (code c =? 0)%N) s then BadPattern
  else parse_loop [] empty_frame false s.

Fixpoint nullable (r : regex) : bool :=
  match r with
  | Void | Chr _ | Dot => false
  | Eps | Star _ => true
  | Cat r1 r2 => nullable r1 && nullable r2
  | Alt r1 r2 => nullable r1 || nullable r2
  end.

(** The derivative of [r] by the character [x]; [.] matches every
    character but the line feed. *)
Fixpoint deriv (caseless : bool) (x : ascii) (r : regex) : regex :=
  match r with
  | Void | Eps => Void
  | Chr c => if ci_eqb caseless c x then Eps else Void
  | Dot => if (code x =? 10)%N then Void else Eps
  | Cat r1 r2 =>
      if nullable r1
      then Alt (Cat (deriv caseless x r1) r2) (deriv caseless x r2)
      else Cat (deriv caseless x r1) r2
  | Alt r1 r2 => Alt (deriv caseless x r1) (deriv caseless x r2)
  | Star r1 => Cat (deriv caseless x r1) (Star r1)
  end.

(** Does [r] match a prefix of [s]? *)
Fixpoint prefix_match (caseless : bool) (r : regex) (s : list ascii) : bool :=
  nullable r ||
  match s with
  | [] => false
  | x :: s' => prefix_match caseless (deriv caseless x r) s'
  end.

(** Unanchored search: does [r] match somewhere in [s]? *)
Fixpoint search (caseless : bool) (r : regex) (s : list ascii) : bool :=
  prefix_match caseless r s ||
  match s with
  | [] => false
  | _ :: s' => search caseless r s'
  end.

Example compile_dot : compile "." = Compiled (Cat Dot Eps).
Proof. reflexivity. Qed.

Example compile_open_paren : compile "(" = BadPattern.
Proof. reflexivity. Qed.

Example compile_star : compile "*" = BadPattern.
Proof. reflexivity. Qed.

Example compile_group :
  compile "a(b|c)*" = Compiled (Cat (Chr "a") (Cat (Star (Alt (Cat (Chr "b") Eps) (Cat (Chr "c") Eps))) Eps)).
Proof. reflexivity. Qed.

Example search_group :
  match compile "a(b|c)*d" with
  | Compiled r => search true r (list_ascii_of_string "xxABCBd") = true
                  /\ search true r (list_ascii_of_string "xxABCB") = false
  | _ => False
  end.
Proof. vm_compute. split; reflexivity. Qed.

(** ** The document store *)

(** A condition on one field, as [main.py] writes them: equality with a
    [str], [{"$regex": p, "$options": o}], [{"$gte": a, "$lte": b}]. *)
Inductive condition :=
  | IsStr (s : string)
  | Regex (pat options : string)
  | Between (gte lte : option float).

(** One entry of a query [dict]: [{"_id": o}], [{name: condition}],
    [{"$or": [{name: condition}, ...]}]. *)
Inductive clause :=
  | IdIs (o : ObjectId)
  | FieldIs (name : string) (c : condition)
  | AnyOf (cs : list (string * condition)).

Abbreviation query := (list clause).

(** ["$options"]: [i] asks for a caseless match. *)
Definition regex_of (pat options : string) : pattern :=
  if String.eqb options "i" || String.eqb options "" then compile pat
  else UnmodelledPattern.

Definition caseless_of (options : string) : bool := String.eqb options "i".

(** The exact order between an integer and a double. *)
Definition Z_leb_SF (z : Z) (x : spec_float) : bool :=
  match x with
  | S754_zero _ => (z <=? 0)%Z
  | S754_infinity neg => negb neg
  | S754_nan => false
  | S754_finite neg m e =>
      let v := if neg then Z.neg m else Z.pos m in
      if (0 <=? e)%Z then (z <=? v * 2 ^ e)%Z else (z * 2 ^ (- e) <=? v)%Z
  end.

Definition SF_leb_Z (x : spec_float) (z : Z) : bool :=
  match x with
  | S754_zero _ => (0 <=? z)%Z
  | S754_infinity neg => neg
  | S754_nan => false
  | S754_finite neg m e =>
      let v := if neg then Z.neg m else Z.pos m in
      if (0 <=? e)%Z then (v * 2 ^ e <=? z)%Z else (v <=? z * 2 ^ (- e))%Z
  end.

(** [bound <= v] as the store orders numbers: a NaN bound selects NaN
    only, other bounds follow the numeric order. *)
Definition num_leb (a b : value) : bool :=
  match a, b with
  | VFloat x, VFloat y =>
      if PrimFloat.is_nan x then PrimFloat.is_nan y else PrimFloat.leb x y
  | VFloat x, VInt z => SF_leb_Z (Prim2SF x) z
  | VInt z, VFloat y => Z_leb_SF z (Prim2SF y)
  | _, _ => false
  end.

Definition bound_ok (le : value -> bool) (b : option float) : bool :=
  match b with
  | Some x => le (VFloat x)
  | None => true
  end.

Definition holds (c : condition) (v : option value) : bool :=
  match c, v with
  | IsStr s, Some (VStr t) => String.eqb s t
  | Regex pat options, Some (VStr t) =>
      match regex_of pat options with
      | Compiled r => search (caseless_of options) r (list_ascii_of_string t)
      | _ => false
      end
  | Between gte lte, Some v =>
      bound_ok (fun b => num_leb b v) gte && bound_ok (fun b => num_leb v b) lte
  | _, _ => false
  end.

Definition field_holds (d : document) (nc : string * condition) : bool :=
  holds (snd nc) (fields d !! fst nc).

Definition clause_holds (d : document) (c : clause) : bool :=
  match c with
  | IdIs o => ObjectId_eqb (_id d) o
  | FieldIs name c => field_holds d (name, c)
  | AnyOf cs => existsb (field_holds d) cs
  end.

Definition matches (q : query) (d : document) : bool :=
  forallb (clause_holds d) q.

(** The patterns a query carries; the store compiles them before it
    looks at any document. *)
Definition condition_pattern (c : condition) : pattern :=
  match c with
  | Regex pat options => regex_of pat options
  | _ => Compiled Eps
  end.

Definition clause_patterns (c : clause) : list pattern :=
  match c with
  | IdIs _ => []
  | FieldIs _ c => [condition_pattern c]
  | AnyOf cs => (fun nc => condition_pattern (snd nc)) <$> cs
  end.

Definition is_bad (p : pattern) : bool :=
  match p with BadPattern => true | _ => false end.

Definition is_unmodelled (p : pattern) : bool :=
  match p with UnmodelledPattern => true | _ => false end.

(** Collection-level operations. *)
Definition first_match (q : query) (c : collection) : option document :=
  head (filter (fun d => matches q d) c).

Fixpoint update_first (q : query) (f : document -> document) (c : collection)
    : collection :=
  match c with
  | [] => []
  | d :: c' => if matches q d then f d :: c' else d :: update_first q f c'
  end.

Fixpoint delete_first (q : query) (c : collection) : collection :=
  match c with
  | [] => []
  | d :: c' => if matches q d then c' else d :: delete_first q c'
  end.

(** [{"$set": updates}] *)
Definition set_fields (updates : dict) (d : document) : document :=
  Document (_id d) (updates ∪ fields d).

(** [cursor.limit(n)] for [n >= 0]: 0 is no limit. *)
Definition apply_limit {A} (limit : Z) (l : list A) : list A :=
  if (limit =? 0)%Z then l else take (Z.to_nat limit) l.

(** The driver writes an [int] on 4 or 8 bytes; it raises [OverflowError]
    for one that does not fit. *)
Definition int64 (z : Z) : bool := (- 2 ^ 63 <=? z)%Z && (z <? 2 ^ 63)%Z.

Definition value_fits (v : value) : bool :=
  match v with
  | VInt z => int64 z
  | _ => true
  end.

(** Can the driver encode this [dict]? *)
Definition encodable (doc : dict) : bool :=
  forallb (fun kv => value_fits (snd kv)) (map_to_list doc).

(** ** The world and the handler monad *)

Inductive cname := c_user | c_property | c_contactmessage.

(** [db]: the collections ["user"], ["property"] and ["contactmessage"]. *)
Record database := Database {
  user : collection;
  property : collection;
  contactmessage : collection
}.

Definition get_collection (n : cname) (d : database) : collection :=
  match n with
  | c_user => user d
  | c_property => property d
  | c_contactmessage => contactmessage d
  end.

Definition set_collection (n : cname) (c : collection) (d : database)
    : database :=
  match n with
  | c_user => Database c (property d) (contactmessage d)
  | c_property => Database (user d) c (contactmessage d)
  | c_contactmessage => Database (user d) (property d) c
  end.

(** The document store and the files under the upload directory. *)
Record world := World { db : database; files : gmap string (list byte) }.

Inductive exception :=
  | HTTPException (status_code : Z) (detail : string)
  | InvalidId
  | OperationFailure
  | DuplicateKeyError
  | UnknownHashError
  | ExpectedStringError
  | KeyError (key : string)
  | TypeError
  | OSError
  | OverflowError.

(** A handler returns, raises, or leaves the modelled fragment. *)
Inductive result (A : Type) :=
  | Ok (a : A)
  | Raised (e : exception)
  | Unmodelled.
Arguments Ok {A} a.
Arguments Raised {A} e.
Arguments Unmodelled {A}.

(** Effects made before an exception stay in the world. *)
Definition M (A : Type) : Type := world -> result A * world.

Definition ret {A} (a : A) : M A := fun w => (Ok a, w).

Definition bind {A B} (m : M A) (k : A -> M B) : M B :=
  fun w =>
    match m w with
    | (Ok a, w') => k a w'
    | (Raised e, w') => (Raised e, w')
    | (Unmodelled, w') => (Unmodelled, w')
    end.

Definition raise {A} (e : exception) : M A := fun w => (Raised e, w).

Definition unmodelled {A} : M A := fun w => (Unmodelled, w).

(** [try: body except Exception: handler] *)
Definition try_except {A} (body handler : M A) : M A :=
  fun w =>
    match body w with
    | (Raised _, w') => handler w'
    | r => r
    end.

Declare Scope handler_scope.
Delimit Scope handler_scope with handler.
Notation "x <- m ;; k" := (bind m (fun x => k))
  (at level 100, m at next level, right associativity) : handler_scope.
Notation "m ;; k" := (bind m (fun _ => k))
  (at level 100, right associativity) : handler_scope.
Local Open Scope handler_scope.

(** [ObjectId(s)] *)
Definition ObjectId_ (s : string) : M ObjectId :=
  match ObjectId_of_str s with
  | Some o => ret o
  | None => raise InvalidId
  end.

(** The store refuses a query with a pattern it cannot compile. *)
Definition check_query (q : query) : M unit :=
  let ps := q ≫= clause_patterns in
  if existsb is_bad ps then raise OperationFailure
  else if existsb is_unmodelled ps then unmodelled
  else ret tt.

(** [db[n].find(q).limit(limit)], read to the end.  A negative limit asks
    for a single batch, whose size is the server's business: not
    modelled.  The limit travels in the command the driver encodes. *)
Definition find (n : cname) (q : query) (limit : Z) : M (list dict) :=
  if (limit <? 0)%Z then unmodelled
  else if negb (int64 limit) then raise OverflowError
  else
    check_query q ;;
    fun w =>
      (Ok (to_dict <$> apply_limit limit
              (filter (fun d => matches q d) (get_collection n (db w)))), w).

(** [db[n].find_one(q)] *)
Definition find_one (n : cname) (q : query) : M (option dict) :=
  check_query q ;;
  fun w => (Ok (to_dict <$> first_match q (get_collection n (db w))), w).

Definition modify (n : cname) (f : collection -> collection) : M unit :=
  fun w =>
    (Ok tt, World (set_collection n (f (get_collection n (db w))) (db w))
                  (files w)).

(** [db[n].insert_one(doc)] for a [doc] without [_id], the only kind
    [main.py] inserts: the driver gives it the ObjectId [generated] and
    encodes it; the store refuses an [_id] it already holds.  Returns
    [inserted_id]. *)
Definition insert_one (n : cname) (generated : ObjectId) (doc : dict)
    : M ObjectId :=
  fun w =>
    if negb (encodable doc) then (Raised OverflowError, w)
    else if existsb (fun d => ObjectId_eqb (_id d) generated)
              (get_collection n (db w))
    then (Raised DuplicateKeyError, w)
    else (modify n (fun c => c ++ [Document generated doc]) ;; ret generated) w.

(** [db[n].update_one(q, {"$set": updates})] for [updates] without
    [_id]: the driver encodes the command, then the store applies it. *)
Definition update_one (n : cname) (q : query) (updates : dict) : M unit :=
  if negb (encodable updates) then raise OverflowError
  else check_query q ;; modify n (update_first q (set_fields updates)).

(** [db[n].delete_one(q)]; returns [deleted_count]. *)
Definition delete_one (n : cname) (q : query) : M Z :=
  check_query q ;;
  fun w =>
    match first_match q (get_collection n (db w)) with
    | Some _ => (modify n (delete_first q) ;; ret 1%Z) w
    | None => (Ok 0%Z, w)
    end.

(** ** The upload directory *)

Definition ends_with_sep (a : string) : bool :=
  match String.get (String.length a - 1) a with
  | Some c => Ascii.eqb c "/"
  | None => false
  end.

(** [os.path.join(a, b)] on POSIX. *)
Definition os_path_join (a b : string) : string :=
  if String.prefix "/" b then b
  else if String.eqb a "" || ends_with_sep a then a +:+ b
  else a +:+ "/" +:+ b.

(** An uploaded file: its client-supplied name, if any, and its bytes. *)
Record UploadFile := Upload { filename : option string; content : list byte }.

(** How an f-string renders a value. *)
Definition format_opt (s : option string) : string := default "None" s.

Definition format_value (v : value) : option string :=
  match v with
  | VStr s => Some s
  | VNone => Some "None"
  | VBool b => Some (if b then "True" else "False")
  | VInt z => Some (pretty z)
  | VObjectId o => Some (str_ObjectId o)
  | VFloat _ | VDatetime _ => None
  end.

(** [doc["_id"] = str(doc["_id"])] *)
Definition stringify_id (doc : dict) : M dict :=
  match doc !! "_id" with
  | Some v =>
      match format_value v with
      | Some s => ret (<["_id" := VStr s]> doc)
      | None => unmodelled
      end
  | None => raise (KeyError "_id")
  end.

(** [for d in docs: d["_id"] = str(d["_id"]); results.append(d)] *)
Fixpoint stringify_each (docs : list dict) : M (list dict) :=
  match docs with
  | [] => ret []
  | d :: docs' =>
      d <- stringify_id d ;;
      results <- stringify_each docs' ;;
      ret (d :: results)
  end.

Example join_relative : os_path_join "/srv/app/uploads" "P1_a.png" = "/srv/app/uploads/P1_a.png".
Proof. reflexivity. Qed.

Example join_absolute : os_path_join "/srv/app/uploads" "/etc/x_a.png" = "/etc/x_a.png".
Proof. reflexivity. Qed.

(** ** schemas.py *)

(** [ContactMessage], as the contact handler receives it once FastAPI has
    validated the request body. *)
Record ContactMessage := Contact {
  cm_property_id : string;
  sender_id : string;
  sender_name : string;
  sender_email : string;
  message : string;
  cm_created_at : option Z
}.

(** [Field(..., min_length=1, max_length=2000)] on [message]. *)
Definition message_ok (p : ContactMessage) : bool :=
  (1 <=? String.length (message p))%nat
  && (String.length (message p) <=? 2000)%nat.

(** [payload.model_dump()] *)
Definition model_dump (p : ContactMessage) : dict :=
  <["property_id" := VStr (cm_property_id p)]>
  (<["sender_id" := VStr (sender_id p)]>
  (<["sender_name" := VStr (sender_name p)]>
  (<["sender_email" := VStr (sender_email p)]>
  (<["message" := VStr (message p)]>
  (<["created_at" := from_option VDatetime VNone (cm_created_at p)]> ∅))))).

(** The numeric constraints of the [Property] schema: [rent_price] and
    [area_sqft] are declared with [ge=0]. *)
Definition Property_numeric_ok (rent_price : float) (area_sqft : Z) : bool :=
  PrimFloat.leb 0 rent_price && (0 <=? area_sqft)%Z.

(** ** main.py *)

Definition Property_not_found : exception :=
  HTTPException 404 "Property not found".

Definition Invalid_credentials : exception :=
  HTTPException 400 "Invalid credentials".

Definition truthy (doc : option dict) : bool := negb (falsy doc).

(** The [updates] loop of [update_property]: a key is set when its value
    is not [None]. *)
Definition collect_updates (pairs : list (string * option value)) : dict :=
  foldl (fun updates kv =>
           match snd kv with
           | Some v => <[fst kv := v]> updates
           | None => updates
           end) ∅ pairs.

(** The lookup every handler but [get_property] starts with:
    [try: query = {"_id": ObjectId(prop_id)}]
    [except Exception: query = {"property_id": prop_id}] *)
Definition query_for (prop_id : string) : M query :=
  try_except
    (o <- ObjectId_ prop_id ;; ret [IdIs o])
    (ret [FieldIs "property_id" (IsStr prop_id)]).

Section Handlers.

(** [os.getcwd()] when the module is loaded. *)
Variable cwd : string.

(** [passlib]'s bcrypt handler on a hash it identifies as its own: the
    verdict, or the exception it raises on a malformed hash. *)
Variable bcrypt_verify : string -> string -> result bool.

(** Whether the host lets the process open the file at a path for
    writing: its directory exists, the name is one the file system takes,
    the process may write there.  The handlers create no directory. *)
Variable may_open : string -> bool.

Definition UPLOAD_DIR : string := os_path_join cwd "uploads".

(** [with open(filepath, "wb") as f: f.write(data)]; [OSError] stands for
    whatever [open] raises when the host refuses (FileNotFoundError for a
    missing directory, and the like). *)
Definition write_file (filepath : string) (data : list byte) : M unit :=
  fun w =>
    if may_open filepath
    then (Ok tt, World (db w) (<[filepath := data]> (files w)))
    else (Raised OSError, w).

(** [pwd_context.verify(secret, hash)] with [schemes=["bcrypt"]]: a [None]
    hash is a failed verification, a hash no scheme identifies raises
    [UnknownHashError]. *)
Definition bcrypt_identify (hash : string) : bool :=
  existsb (fun ident => String.prefix ident hash)
    ["$2$"; "$2a$"; "$2x$"; "$2y$"; "$2b$"].

Definition pwd_context_verify (secret : string) (hash : value) : M bool :=
  match hash with
  | VNone => ret false
  | VStr h =>
      if bcrypt_identify h then fun w => (bcrypt_verify secret h, w)
      else raise UnknownHashError
  | _ => raise ExpectedStringError
  end.

Definition login (username password : string) : M dict :=
  user <- find_one c_user [FieldIs "username" (IsStr username)] ;;
  if falsy user then raise Invalid_credentials
  else
    let user := default ∅ user in
    ok <- pwd_context_verify password
            (default (VStr "") (user !! "hashed_password")) ;;
    if negb ok then raise Invalid_credentials
    else
      match user !! "_id", user !! "username" with
      | Some i, Some u =>
          match format_value i with
          | Some s =>
              ret (<["_id" := VStr s]>
                   (<["username" := u]>
                   (<["role" := default (VStr "customer") (user !! "role")]> ∅)))
          | None => unmodelled
          end
      | None, _ => raise (KeyError "_id")
      | _, None => raise (KeyError "username")
      end.

Definition nonempty (s : option string) : option string :=
  match s with
  | Some "" => None
  | _ => s
  end.

Definition list_properties (q city furnishing : option string)
    (min_price max_price : option float) (limit : Z) : M (list dict) :=
  let query : query := [] in
  let query :=
    match nonempty q with
    | Some q =>
        query ++ [AnyOf [("title", Regex q "i"); ("city", Regex q "i");
                          ("locality", Regex q "i")]]
    | None => query
    end in
  let query :=
    match nonempty city with
    | Some city => query ++ [FieldIs "city" (Regex city "i")]
    | None => query
    end in
  let query :=
    match nonempty furnishing with
    | Some furnishing => query ++ [FieldIs "furnishing" (IsStr furnishing)]
    | None => query
    end in
  let query :=
    match min_price, max_price with
    | None, None => query
    | _, _ => query ++ [FieldIs "rent_price" (Between min_price max_price)]
    end in
  docs <- find c_property query limit ;;
  stringify_each docs.

Definition get_property (prop_id : string) : M dict :=
  doc <- try_except
           (o <- ObjectId_ prop_id ;; find_one c_property [IdIs o])
           (find_one c_property [FieldIs "property_id" (IsStr prop_id)]) ;;
  if falsy doc then raise Property_not_found
  else stringify_id (default ∅ doc).

Definition create_property (generated : ObjectId)
    (property_id title city locality : string) (rent_price : float)
    (area_sqft : Z) (furnishing contact_details owner_id : string)
    (image : option UploadFile) : M dict :=
  image_url <-
    match image with
    | Some image =>
        let filename := property_id +:+ "_" +:+ format_opt (filename image) in
        let filepath := os_path_join UPLOAD_DIR filename in
        write_file filepath (content image) ;;
        ret (VStr ("/uploads/" +:+ filename))
    | None => ret VNone
    end ;;
  let doc : dict :=
    <["property_id" := VStr property_id]>
    (<["title" := VStr title]>
    (<["city" := VStr city]>
    (<["locality" := VStr locality]>
    (<["rent_price" := VFloat rent_price]>
    (<["area_sqft" := VInt area_sqft]>
    (<["furnishing" := VStr furnishing]>
    (<["contact_details" := VStr contact_details]>
    (<["image_url" := image_url]>
    (<["owner_id" := VStr owner_id]> ∅))))))))) in
  existing <- find_one c_property [FieldIs "property_id" (IsStr property_id)] ;;
  if truthy existing then raise (HTTPException 400 "property_id must be unique")
  else
    inserted_id <- insert_one c_property generated doc ;;
    ret (<["_id" := VStr (str_ObjectId inserted_id)]> doc).

Definition update_property (prop_id : string)
    (title city locality : option string) (rent_price : option float)
    (area_sqft : option Z) (furnishing contact_details : option string)
    (image : option UploadFile) : M dict :=
  query <- query_for prop_id ;;
  existing <- find_one c_property query ;;
  if falsy existing then raise Property_not_found
  else
    let existing := default ∅ existing in
    let updates :=
      collect_updates
        [("title", VStr <$> title);
         ("city", VStr <$> city);
         ("locality", VStr <$> locality);
         ("rent_price", VFloat <$> rent_price);
         ("area_sqft", VInt <$> area_sqft);
         ("furnishing", VStr <$> furnishing);
         ("contact_details", VStr <$> contact_details)] in
    updates <-
      match image with
      | Some image =>
          match format_value (default (VStr prop_id) (existing !! "property_id")) with
          | Some pid =>
              let filename := pid +:+ "_" +:+ format_opt (filename image) in
              let filepath := os_path_join UPLOAD_DIR filename in
              write_file filepath (content image) ;;
              ret (<["image_url" := VStr ("/uploads/" +:+ filename)]> updates)
          | None => unmodelled
          end
      | None => ret updates
      end ;;
    if Nat.eqb (size updates) 0 then ret {["message" := VStr "No changes"]}
    else
      update_one c_property query updates ;;
      updated <- find_one c_property query ;;
      match updated with
      | Some updated => stringify_id updated
      | None => raise TypeError
      end.

Definition delete_property (prop_id : string) : M dict :=
  query <- query_for prop_id ;;
  deleted_count <- delete_one c_property query ;;
  if (deleted_count =? 0)%Z then raise Property_not_found
  else ret {["deleted" := VBool true]}.

Definition contact_owner (generated : ObjectId) (prop_id : string)
    (payload : ContactMessage) : M dict :=
  query <- query_for prop_id ;;
  prop <- find_one c_property query ;;
  if falsy prop then raise Property_not_found
  else
    let doc := model_dump payload in
    insert_one c_contactmessage generated doc ;;
    ret {["sent" := VBool true]}.

End Handlers.

(** ** The resolver, as the specification words it and as amended *)

Definition by_store_id (prop_id : string) (c : collection) : option document :=
  o ← ObjectId_of_str prop_id; first_match [IdIs o] c.

Definition by_property_id (prop_id : string) (c : collection)
    : option document :=
  first_match [FieldIs "property_id" (IsStr prop_id)] c.

(** The specification's resolver: the store identifier first, then the
    [property_id] when the identifier is not valid syntax or finds no
    match. *)
Definition resolve_spec (prop_id : string) (c : collection) : option document :=
  match by_store_id prop_id c with
  | Some d => Some d
  | None => by_property_id prop_id c
  end.

(** The resolver with a single lookup: by store identifier when the
    string is a valid identifier, by [property_id] otherwise. *)
Definition resolve (prop_id : string) (c : collection) : option document :=
  match ObjectId_of_str prop_id with
  | Some o => first_match [IdIs o] c
  | None => by_property_id prop_id c
  end.

(** The query the handlers end up with. *)
Definition resolved_query (prop_id : string) : query :=
  match ObjectId_of_str prop_id with
  | Some o => [IdIs o]
  | None => [FieldIs "property_id" (IsStr prop_id)]
  end.

(** The response for a stored document: its [dict] with [_id] as text. *)
Definition rendered (d : document) : dict :=
  <["_id" := VStr (str_ObjectId (_id d))]> (to_dict d).

(** * Properties *)

(** ** The store *)

Lemma first_match_None q c :
  first_match q c = None <-> Forall (fun d => matches q d = false) c.
Proof.
  unfold first_match. induction c as [|d c IH].
  - split; [constructor | reflexivity].
  - rewrite filter_cons. case_decide as Hd.
    + apply Is_true_true in Hd. split.
      * discriminate.
      * intros H. inversion H; congruence.
    + apply Is_true_false in Hd. rewrite IH. split.
      * intros H. constructor; assumption.
      * intros H. inversion H; assumption.
Qed.

Lemma first_match_Some q c d :
  first_match q c = Some d -> d ∈ c /\ matches q d = true.
Proof.
  unfold first_match. intros H. apply head_Some_elem_of in H.
  apply list_elem_of_filter in H as [Hm Hd]. split; [assumption|].
  destruct (matches q d); [reflexivity | destruct Hm].
Qed.

Lemma first_match_elem q c d :
  d ∈ c -> matches q d = true -> is_Some (first_match q c).
Proof.
  intros Hd Hm. destruct (first_match q c) eqn:E; [eauto|].
  apply first_match_None in E. rewrite Forall_forall in E.
  specialize (E d Hd). congruence.
Qed.

Lemma matches_property_id p d :
  matches [FieldIs "property_id" (IsStr p)] d = true
  <-> fields d !! "property_id" = Some (VStr p).
Proof.
  unfold matches, clause_holds, field_holds, holds; simpl.
  rewrite andb_true_r.
  destruct (fields d !! "property_id") as [[]|] eqn:E; try (split; [discriminate | congruence]).
  rewrite String.eqb_eq. split; congruence.
Qed.

Lemma ObjectId_eqb_eq a b : ObjectId_eqb a b = true <-> a = b.
Proof.
  unfold ObjectId_eqb. rewrite bool_decide_eq_true. split; [|congruence].
  revert b. induction a as [|x a IH]; intros [|y b] H; try discriminate; auto.
  inversion H as [[Hx Ht]]. f_equal; [|auto].
  apply (f_equal Byte.of_N) in Hx. rewrite !Byte.of_to_N in Hx. congruence.
Qed.

Lemma matches_id o d : matches [IdIs o] d = true <-> _id d = o.
Proof.
  unfold matches; simpl. rewrite andb_true_r. apply ObjectId_eqb_eq.
Qed.

Lemma falsy_to_dict d : falsy (Some (to_dict d)) = false.
Proof.
  unfold falsy, to_dict. apply Nat.eqb_neq. intros H.
  apply map_size_empty_iff in H. exact (insert_non_empty _ _ _ H).
Qed.

Lemma stringify_to_dict d w : stringify_id (to_dict d) w = (Ok (rendered d), w).
Proof.
  unfold stringify_id, to_dict. rewrite lookup_insert_eq. reflexivity.
Qed.

Lemma check_resolved prop_id w : check_query (resolved_query prop_id) w = (Ok tt, w).
Proof. unfold resolved_query. destruct (ObjectId_of_str prop_id); reflexivity. Qed.

Lemma query_for_resolved prop_id w :
  query_for prop_id w = (Ok (resolved_query prop_id), w).
Proof.
  unfold query_for, try_except, bind, ObjectId_, resolved_query.
  destruct (ObjectId_of_str prop_id); reflexivity.
Qed.

Lemma find_one_resolved prop_id w :
  find_one c_property (resolved_query prop_id) w
  = (Ok (to_dict <$> resolve prop_id (property (db w))), w).
Proof.
  unfold find_one, bind. rewrite check_resolved.
  unfold resolve, resolved_query, by_property_id.
  destruct (ObjectId_of_str prop_id); reflexivity.
Qed.

(** ** What the driver can encode *)

Lemma encodable_spec (d : dict) :
  encodable d = true <-> forall k v, d !! k = Some v -> value_fits v = true.
Proof.
  unfold encodable. rewrite forallb_forall. split.
  - intros H k v Hk. apply (H (k, v)).
    apply list_elem_of_In, elem_of_map_to_list, Hk.
  - intros H [k v] Hin. apply list_elem_of_In, elem_of_map_to_list in Hin.
    exact (H k v Hin).
Qed.

Lemma encodable_false (d : dict) k z :
  d !! k = Some (VInt z) -> int64 z = false -> encodable d = false.
Proof.
  intros Hk Hz. destruct (encodable d) eqn:E; [|reflexivity].
  rewrite encodable_spec in E. specialize (E _ _ Hk). simpl in E. congruence.
Qed.

(** Every entry of a [dict] written as a chain of insertions. *)
Ltac each_entry H :=
  repeat (apply lookup_insert_Some in H as [[_ <-]|[_ H]];
          [try reflexivity|]);
  try (rewrite lookup_empty in H; discriminate).

Lemma encodable_model_dump payload : encodable (model_dump payload) = true.
Proof.
  apply encodable_spec. intros k v H. unfold model_dump in H. each_entry H.
  destruct (cm_created_at payload); reflexivity.
Qed.

(** ** What each handler computes, by the outcome of the lookup *)

Arguments to_dict : simpl never.
Arguments falsy : simpl never.
Arguments stringify_id : simpl never.

Lemma get_property_eval prop_id w :
  get_property prop_id w =
  match resolve prop_id (property (db w)) with
  | Some d => (Ok (rendered d), w)
  | None => (Raised Property_not_found, w)
  end.
Proof.
  unfold get_property, resolve, by_property_id, try_except, ObjectId_, bind.
  destruct (ObjectId_of_str prop_id) as [o|]; simpl.
  - destruct (first_match [IdIs o] (property (db w))) as [d|]; simpl; [|reflexivity].
    rewrite falsy_to_dict. apply stringify_to_dict.
  - destruct (first_match _ (property (db w))) as [d|]; simpl; [|reflexivity].
    rewrite falsy_to_dict. apply stringify_to_dict.
Qed.

Lemma first_match_resolved prop_id c :
  first_match (resolved_query prop_id) c = resolve prop_id c.
Proof.
  unfold resolved_query, resolve, by_property_id.
  destruct (ObjectId_of_str prop_id); reflexivity.
Qed.

Lemma delete_property_eval prop_id w :
  delete_property prop_id w =
  match resolve prop_id (property (db w)) with
  | Some _ =>
      (Ok {["deleted" := VBool true]},
       World (set_collection c_property
                (delete_first (resolved_query prop_id) (property (db w))) (db w))
             (files w))
  | None => (Raised Property_not_found, w)
  end.
Proof.
  unfold delete_property, bind. rewrite query_for_resolved.
  unfold delete_one, bind. rewrite check_resolved. simpl.
  rewrite first_match_resolved.
  destruct (resolve prop_id (property (db w))); reflexivity.
Qed.

Definition holds_id (generated : ObjectId) (c : collection) : bool :=
  existsb (fun d => ObjectId_eqb (_id d) generated) c.

Lemma contact_owner_eval generated prop_id payload w :
  contact_owner generated prop_id payload w =
  match resolve prop_id (property (db w)) with
  | Some _ =>
      if holds_id generated (contactmessage (db w))
      then (Raised DuplicateKeyError, w)
      else (Ok {["sent" := VBool true]},
            World (Database (user (db w)) (property (db w))
                     (contactmessage (db w)
                        ++ [Document generated (model_dump payload)]))
                  (files w))
  | None => (Raised Property_not_found, w)
  end.
Proof.
  unfold contact_owner, bind. rewrite query_for_resolved, find_one_resolved.
  destruct (resolve prop_id (property (db w))) as [d|]; simpl; [|reflexivity].
  rewrite falsy_to_dict. unfold insert_one, holds_id.
  rewrite encodable_model_dump. simpl.
  destruct (existsb _ (contactmessage (db w))); reflexivity.
Qed.

(** ** [update_one] on a collection *)

Lemma first_match_hit q d c : matches q d = true -> first_match q (d :: c) = Some d.
Proof.
  intros H. unfold first_match. rewrite filter_cons.
  rewrite decide_True by (rewrite H; exact I). reflexivity.
Qed.

Lemma first_match_miss q d c :
  matches q d = false -> first_match q (d :: c) = first_match q c.
Proof.
  intros H. unfold first_match. rewrite filter_cons.
  rewrite decide_False by (rewrite H; exact id). reflexivity.
Qed.

Lemma first_match_split q c d :
  first_match q c = Some d ->
  exists pre post,
    c = pre ++ d :: post /\ Forall (fun x => matches q x = false) pre
    /\ matches q d = true.
Proof.
  induction c as [|x c IH]; [discriminate|].
  destruct (matches q x) eqn:E.
  - rewrite first_match_hit by assumption. intros [= <-].
    exists [], c. repeat split; [constructor | assumption].
  - rewrite first_match_miss by assumption. intros H.
    destruct (IH H) as (pre & post & -> & Hpre & Hd).
    exists (x :: pre), post. repeat split; [constructor|]; assumption.
Qed.

Lemma update_first_app q f pre d post :
  Forall (fun x => matches q x = false) pre -> matches q d = true ->
  update_first q f (pre ++ d :: post) = pre ++ f d :: post.
Proof.
  intros Hpre Hd. induction Hpre as [|x pre Hx _ IH]; simpl.
  - rewrite Hd. reflexivity.
  - rewrite Hx, IH. reflexivity.
Qed.

Lemma first_match_app q pre d post :
  Forall (fun x => matches q x = false) pre -> matches q d = true ->
  first_match q (pre ++ d :: post) = Some d.
Proof.
  intros Hpre Hd. induction Hpre as [|x pre Hx _ IH]; simpl.
  - apply first_match_hit, Hd.
  - rewrite first_match_miss by assumption. exact IH.
Qed.

Lemma matches_resolved_set_fields prop_id updates d :
  updates !! "property_id" = None ->
  matches (resolved_query prop_id) (set_fields updates d)
  = matches (resolved_query prop_id) d.
Proof.
  intros H. unfold resolved_query.
  destruct (ObjectId_of_str prop_id); [reflexivity|].
  unfold matches, clause_holds, field_holds, set_fields; simpl.
  rewrite lookup_union_r by assumption. reflexivity.
Qed.

(** ** The [updates] of a request *)

(** The fields a request supplies, as a map: the form fields that are
    present, and the new [image_url] when an image comes with the request. *)
Definition supplied_fields (title city locality : option string)
    (rent_price : option float) (area_sqft : option Z)
    (furnishing contact_details image_url : option string) : dict :=
  list_to_map
    (omap (fun kv => pair (fst kv) <$> snd kv)
       [("title", VStr <$> title);
        ("city", VStr <$> city);
        ("locality", VStr <$> locality);
        ("rent_price", VFloat <$> rent_price);
        ("area_sqft", VInt <$> area_sqft);
        ("furnishing", VStr <$> furnishing);
        ("contact_details", VStr <$> contact_details);
        ("image_url", VStr <$> image_url)]).

Lemma collect_updates_lookup (pairs : list (string * option value)) (acc : dict) k :
  NoDup pairs.*1 ->
  foldl (fun updates kv =>
           match snd kv with
           | Some v => <[fst kv := v]> updates
           | None => updates
           end) acc pairs !! k
  = match (list_to_map pairs : gmap string (option value)) !! k with
    | Some (Some v) => Some v
    | _ => acc !! k
    end.
Proof.
  revert acc. induction pairs as [|[k0 v0] ps IH]; intros acc Hnd.
  - reflexivity.
  - inversion Hnd as [|? ? Hk0 Hps]; subst. simpl. rewrite IH by assumption.
    destruct (decide (k0 = k)) as [->|Hne].
    + rewrite lookup_insert_eq.
      rewrite (not_elem_of_list_to_map_1 (M := gmap string) ps k) by assumption.
      destruct v0; [apply lookup_insert_eq | reflexivity].
    + rewrite lookup_insert_ne by assumption.
      destruct (list_to_map ps !! k) as [[v|]|]; try reflexivity;
        destruct v0; try reflexivity; apply lookup_insert_ne; assumption.
Qed.

Lemma omap_pairs_lookup (pairs : list (string * option value)) k :
  NoDup pairs.*1 ->
  (list_to_map (omap (fun kv => pair (fst kv) <$> snd kv) pairs) : dict) !! k
  = match (list_to_map pairs : gmap string (option value)) !! k with
    | Some (Some v) => Some v
    | _ => None
    end.
Proof.
  induction pairs as [|[k0 v0] ps IH]; intros Hnd.
  - reflexivity.
  - inversion Hnd as [|? ? Hk0 Hps]; subst. specialize (IH Hps).
    unfold omap in *. simpl.
    destruct (decide (k0 = k)) as [->|Hne].
    + rewrite lookup_insert_eq. destruct v0 as [v|]; simpl.
      * apply lookup_insert_eq.
      * rewrite IH.
        rewrite (not_elem_of_list_to_map_1 (M := gmap string) ps k) by assumption.
        reflexivity.
    + rewrite (lookup_insert_ne (M := gmap string)) by assumption.
      destruct v0 as [v|]; simpl.
      * rewrite lookup_insert_ne by assumption. apply IH.
      * apply IH.
Qed.

Lemma collect_updates_supplied (pairs : list (string * option value)) :
  NoDup pairs.*1 ->
  collect_updates pairs
  = list_to_map (omap (fun kv => pair (fst kv) <$> snd kv) pairs).
Proof.
  intros Hnd. apply map_eq. intros k. unfold collect_updates.
  rewrite collect_updates_lookup, omap_pairs_lookup by assumption.
  destruct (list_to_map pairs !! k) as [[v|]|]; try reflexivity;
    apply lookup_empty.
Qed.

Lemma supplied_fields_other title city locality rent_price area_sqft
    furnishing contact_details image_url k :
  k ∉ ["title"; "city"; "locality"; "rent_price"; "area_sqft"; "furnishing";
       "contact_details"; "image_url"] ->
  supplied_fields title city locality rent_price area_sqft furnishing
    contact_details image_url !! k = None.
Proof.
  intros Hk. unfold supplied_fields. apply not_elem_of_list_to_map_1.
  intros Hin. apply Hk. apply list_elem_of_fmap in Hin as [[k' v] [-> Hin]].
  apply list_elem_of_omap in Hin as [[k0 v0] [Hin Hv]].
  destruct v0 as [v0|]; [|discriminate]. injection Hv as <- <-.
  apply (list_elem_of_fmap_2 fst) in Hin. exact Hin.
Qed.

Lemma updates_without_image title city locality rent_price area_sqft
    furnishing contact_details :
  collect_updates
    [("title", VStr <$> title); ("city", VStr <$> city);
     ("locality", VStr <$> locality); ("rent_price", VFloat <$> rent_price);
     ("area_sqft", VInt <$> area_sqft); ("furnishing", VStr <$> furnishing);
     ("contact_details", VStr <$> contact_details)]
  = supplied_fields title city locality rent_price area_sqft furnishing
      contact_details None.
Proof.
  rewrite collect_updates_supplied
    by (apply (bool_decide_unpack _); vm_compute; exact I).
  reflexivity.
Qed.

Lemma updates_with_image title city locality rent_price area_sqft
    furnishing contact_details url :
  <["image_url" := VStr url]>
    (collect_updates
       [("title", VStr <$> title); ("city", VStr <$> city);
        ("locality", VStr <$> locality); ("rent_price", VFloat <$> rent_price);
        ("area_sqft", VInt <$> area_sqft); ("furnishing", VStr <$> furnishing);
        ("contact_details", VStr <$> contact_details)])
  = supplied_fields title city locality rent_price area_sqft furnishing
      contact_details (Some url).
Proof.
  unfold supplied_fields.
  rewrite <- collect_updates_supplied
    by (apply (bool_decide_unpack _); vm_compute; exact I).
  reflexivity.
Qed.

(** The world after [update_one] on the resolved property. *)
Definition updated_world (prop_id : string) (updates : dict) (w : world) : world :=
  World (set_collection c_property
           (update_first (resolved_query prop_id) (set_fields updates)
              (property (db w))) (db w))
        (files w).

Lemma resolve_updated prop_id updates w existing :
  resolve prop_id (property (db w)) = Some existing ->
  updates !! "property_id" = None ->
  resolve prop_id (property (db (updated_world prop_id updates w)))
  = Some (set_fields updates existing).
Proof.
  intros Hfound Hpid. rewrite <- first_match_resolved in Hfound.
  destruct (first_match_split _ _ _ Hfound) as (pre & post & Hc & Hpre & Hd).
  rewrite <- first_match_resolved. simpl. rewrite Hc.
  rewrite update_first_app by assumption.
  apply first_match_app; [assumption|].
  rewrite matches_resolved_set_fields; assumption.
Qed.

Lemma update_one_then_find prop_id updates w existing :
  resolve prop_id (property (db w)) = Some existing ->
  updates !! "property_id" = None ->
  (update_one c_property (resolved_query prop_id) updates ;;
   updated <- find_one c_property (resolved_query prop_id) ;;
   match updated with
   | Some updated => stringify_id updated
   | None => raise TypeError
   end) w
  = if encodable updates
    then (Ok (rendered (set_fields updates existing)),
          updated_world prop_id updates w)
    else (Raised OverflowError, w).
Proof.
  intros Hfound Hpid. unfold update_one.
  destruct (encodable updates); [|reflexivity]. cbn [negb].
  unfold bind at 1 2. rewrite check_resolved.
  change (modify c_property _ w) with (Ok tt, updated_world prop_id updates w).
  cbv beta iota. unfold bind. rewrite find_one_resolved.
  rewrite (resolve_updated _ _ _ _ Hfound Hpid). apply stringify_to_dict.
Qed.

Lemma encodable_supplied title city locality rent_price area_sqft furnishing
    contact_details image_url :
  encodable (supplied_fields title city locality rent_price area_sqft
               furnishing contact_details image_url)
  = from_option int64 true area_sqft.
Proof.
  destruct (from_option int64 true area_sqft) eqn:E.
  - apply encodable_spec. intros k v Hk. unfold supplied_fields in Hk.
    apply elem_of_list_to_map_2, list_elem_of_omap in Hk
      as [[k0 v0] [Hin Hv]].
    destruct v0 as [v0|]; [|discriminate]. injection Hv as _ <-.
    repeat (apply elem_of_cons in Hin as [Hin|Hin];
            [injection Hin as _ Hv|]).
    all: try (apply elem_of_nil in Hin; contradiction).
    all: try (destruct title, city, locality, rent_price, furnishing,
                contact_details, image_url; simpl in Hv; congruence
              || (injection Hv as ->; reflexivity)).
    destruct area_sqft as [z|]; [|discriminate]. injection Hv as ->. exact E.
  - destruct area_sqft as [z|]; [|discriminate].
    apply (encodable_false _ "area_sqft" z); [|exact E].
    unfold supplied_fields.
    rewrite omap_pairs_lookup
      by (apply (bool_decide_unpack _); vm_compute; exact I).
    reflexivity.
Qed.

(** The text an f-string puts for the property's key, and the public path
    of an uploaded image. *)
Definition owner_key (existing : document) (prop_id : string) : option string :=
  format_value (default (VStr prop_id) (fields existing !! "property_id")).

Definition upload_name (pid : string) (image : UploadFile) : string :=
  pid +:+ "_" +:+ format_opt (filename image).

Definition image_url_of (pid : string) (image : UploadFile) : string :=
  "/uploads/" +:+ upload_name pid image.

Definition No_changes : dict := {["message" := VStr "No changes"]}.

(** Where the image of a request is written. *)
Definition upload_path (cwd pid : string) (image : UploadFile) : string :=
  os_path_join (UPLOAD_DIR cwd) (upload_name pid image).

(** A supplied [area_sqft] is one the driver can encode. *)
Definition area_fits (area_sqft : option Z) : bool :=
  from_option int64 true area_sqft.

Lemma update_property_found cwd may_open prop_id title city locality rent_price
    area_sqft furnishing contact_details image w existing :
  resolve prop_id (property (db w)) = Some existing ->
  update_property cwd may_open prop_id title city locality rent_price area_sqft
    furnishing contact_details image w =
  match image with
  | None =>
      let updates := supplied_fields title city locality rent_price area_sqft
                       furnishing contact_details None in
      if Nat.eqb (size updates) 0 then (Ok No_changes, w)
      else if area_fits area_sqft
      then (Ok (rendered (set_fields updates existing)),
            updated_world prop_id updates w)
      else (Raised OverflowError, w)
  | Some img =>
      match owner_key existing prop_id with
      | Some pid =>
          let updates := supplied_fields title city locality rent_price
                           area_sqft furnishing contact_details
                           (Some (image_url_of pid img)) in
          if may_open (upload_path cwd pid img)
          then
            let w' := World (db w)
                        (<[upload_path cwd pid img := content img]> (files w)) in
            if area_fits area_sqft
            then (Ok (rendered (set_fields updates existing)),
                  updated_world prop_id updates w')
            else (Raised OverflowError, w')
          else (Raised OSError, w)
      | None => (Unmodelled, w)
      end
  end.
Proof.
  intros Hfound. unfold update_property, bind at 1 2.
  rewrite query_for_resolved, find_one_resolved, Hfound.
  cbn [fmap option_fmap option_map]. rewrite falsy_to_dict.
  rewrite updates_without_image.
  destruct image as [img|].
  - unfold owner_key. cbn [default from_option].
    replace (to_dict existing !! "property_id")
      with (fields existing !! "property_id")
      by (unfold to_dict; rewrite lookup_insert_ne; [reflexivity | discriminate]).
    destruct (format_value _) as [pid|]; [|reflexivity].
    unfold bind at 1 2, write_file.
    change (pid +:+ "_" +:+ format_opt (filename img)) with (upload_name pid img).
    change (os_path_join (UPLOAD_DIR cwd) (upload_name pid img))
      with (upload_path cwd pid img).
    destruct (may_open (upload_path cwd pid img)); [|reflexivity].
    cbn [ret]. cbv zeta.
    rewrite <- updates_without_image, updates_with_image.
    change ("/uploads/" +:+ upload_name pid img) with (image_url_of pid img).
    replace (size _ =? 0)%nat with false.
    + unfold area_fits. rewrite <- (encodable_supplied title city locality
        rent_price area_sqft furnishing contact_details (Some (image_url_of pid img))).
      apply update_one_then_find; [exact Hfound|].
      apply supplied_fields_other.
      apply (bool_decide_unpack _); vm_compute; exact I.
    + symmetry. apply Nat.eqb_neq. intros H.
      apply map_size_empty_iff in H. rewrite <- updates_with_image in H.
      exact (insert_non_empty _ _ _ H).
  - unfold bind at 1. cbn [ret]. cbv zeta.
    destruct (size _ =? 0)%nat; [reflexivity|].
    unfold area_fits. rewrite <- (encodable_supplied title city locality
      rent_price area_sqft furnishing contact_details None).
    apply update_one_then_find; [exact Hfound|].
    apply supplied_fields_other.
      apply (bool_decide_unpack _); vm_compute; exact I.
Qed.

Lemma update_property_missing cwd may_open prop_id title city locality rent_price
    area_sqft furnishing contact_details image w :
  resolve prop_id (property (db w)) = None ->
  update_property cwd may_open prop_id title city locality rent_price area_sqft
    furnishing contact_details image w = (Raised Property_not_found, w).
Proof.
  intros H. unfold update_property, bind at 1 2.
  rewrite query_for_resolved, find_one_resolved, H. reflexivity.
Qed.

(** ** [create_property], by the outcome of the uniqueness check *)

(** The [doc] literal of [create_property]. *)
Definition created_fields (property_id title city locality : string)
    (rent_price : float) (area_sqft : Z)
    (furnishing contact_details owner_id : string) (image_url : value) : dict :=
  <["property_id" := VStr property_id]>
  (<["title" := VStr title]>
  (<["city" := VStr city]>
  (<["locality" := VStr locality]>
  (<["rent_price" := VFloat rent_price]>
  (<["area_sqft" := VInt area_sqft]>
  (<["furnishing" := VStr furnishing]>
  (<["contact_details" := VStr contact_details]>
  (<["image_url" := image_url]>
  (<["owner_id" := VStr owner_id]> ∅))))))))).

(** The upload directory after the image of a create request is saved. *)
Definition saved_image (cwd property_id : string) (image : option UploadFile)
    (fs : gmap string (list byte)) : gmap string (list byte) :=
  match image with
  | Some img =>
      <[os_path_join (UPLOAD_DIR cwd) (upload_name property_id img)
        := content img]> fs
  | None => fs
  end.

(** A name without [/], and a path that names a file directly in [dir]. *)
Definition no_sep (s : string) : bool :=
  forallb (fun c => negb (Ascii.eqb c "/")) (list_ascii_of_string s).

Fixpoint strip_prefix (p s : string) : option string :=
  match p, s with
  | EmptyString, _ => Some s
  | String a p', String b s' => if Ascii.eqb a b then strip_prefix p' s' else None
  | String _ _, EmptyString => None
  end.

Definition directly_in (dir path : string) : bool :=
  match strip_prefix (dir +:+ "/") path with
  | Some name => no_sep name
  | None => false
  end.

(** The host lets the image of a request, if there is one, be written. *)
Definition image_opens (may_open : string -> bool) (cwd pid : string)
    (image : option UploadFile) : bool :=
  match image with
  | Some img => may_open (upload_path cwd pid img)
  | None => true
  end.

Definition created_image_url (property_id : string) (image : option UploadFile)
    : value :=
  match image with
  | Some img => VStr (image_url_of property_id img)
  | None => VNone
  end.

Definition Conflict : exception := HTTPException 400 "property_id must be unique".

Lemma encodable_created property_id title city locality rent_price area_sqft
    furnishing contact_details owner_id image :
  encodable (created_fields property_id title city locality rent_price
               area_sqft furnishing contact_details owner_id
               (created_image_url property_id image))
  = int64 area_sqft.
Proof.
  destruct (int64 area_sqft) eqn:E.
  - apply encodable_spec. intros k v H. unfold created_fields in H.
    each_entry H; [exact E|]. destruct image; reflexivity.
  - apply (encodable_false _ "area_sqft" area_sqft); [reflexivity | exact E].
Qed.

Lemma create_property_eval cwd may_open generated property_id title city
    locality rent_price area_sqft furnishing contact_details owner_id image w :
  create_property cwd may_open generated property_id title city locality
    rent_price area_sqft furnishing contact_details owner_id image w =
  let fs := saved_image cwd property_id image (files w) in
  let doc := created_fields property_id title city locality rent_price
               area_sqft furnishing contact_details owner_id
               (created_image_url property_id image) in
  if image_opens may_open cwd property_id image
  then
    match by_property_id property_id (property (db w)) with
    | Some _ => (Raised Conflict, World (db w) fs)
    | None =>
        if int64 area_sqft
        then
          if holds_id generated (property (db w))
          then (Raised DuplicateKeyError, World (db w) fs)
          else (Ok (<["_id" := VStr (str_ObjectId generated)]> doc),
                World (Database (user (db w))
                         (property (db w) ++ [Document generated doc])
                         (contactmessage (db w))) fs)
        else (Raised OverflowError, World (db w) fs)
    end
  else (Raised OSError, w).
Proof.
  cbv zeta. rewrite <- (encodable_created property_id title city locality
    rent_price area_sqft furnishing contact_details owner_id image).
  unfold create_property.
  assert (Hfind : forall w',
    find_one c_property [FieldIs "property_id" (IsStr property_id)] w'
    = (Ok (to_dict <$> by_property_id property_id (property (db w'))), w'))
    by reflexivity.
  destruct image as [img|]; unfold bind at 1;
    [ unfold bind at 1, write_file;
      change (os_path_join (UPLOAD_DIR cwd)
                (property_id +:+ "_" +:+ format_opt (filename img)))
        with (upload_path cwd property_id img);
      cbn [image_opens];
      destruct (may_open (upload_path cwd property_id img)); [|reflexivity]
    | cbn [image_opens] ];
    cbn [ret]; cbv beta iota zeta; unfold bind at 1; rewrite Hfind;
    cbv beta iota; cbn [db files]; unfold truthy;
    (destruct (by_property_id property_id (property (db w))) as [d|];
     cbn [fmap option_fmap option_map];
     [ rewrite falsy_to_dict; destruct w; reflexivity
     | change (negb (falsy None)) with false; cbv beta iota;
       unfold insert_one, holds_id, bind; cbn [get_collection db];
       match goal with
       | |- _ = (if encodable ?e then _ else _) =>
           match goal with
           | |- context [negb (encodable ?d)] => change d with e
           end;
           destruct (encodable e)
       end;
       cbn [negb];
       [ destruct (existsb _ (property (db w))); destruct w; reflexivity
       | destruct w; reflexivity ] ]).
Qed.

(** ** Sample data *)

(** The ObjectId written [0123456789abcdef01234567]. *)
Definition oid_a : ObjectId :=
  [x01; x23; x45; x67; x89; xab; xcd; xef; x01; x23; x45; x67].

(** The ObjectId written [0123456789abcdef01234568]. *)
Definition oid_b : ObjectId :=
  [x01; x23; x45; x67; x89; xab; xcd; xef; x01; x23; x45; x68].

(** A [property_id] that is also valid ObjectId syntax. *)
Definition hex_key : string := "aaaaaaaaaaaaaaaaaaaaaaaa".

Definition listing (property_id : string) : document :=
  Document oid_a
    (created_fields property_id "Garden flat" "Pune" "Baner" 12000 650
       "semi" "call 555-0100" "u42" VNone).

Definition world_of (properties : list document) : world :=
  World (Database [] properties []) ∅.

Definition enquiry : ContactMessage :=
  Contact "P-001" "u7" "Asha" "asha@example.org" "Is it still available?" None.

Definition photo : UploadFile := Upload (Some "front.png") [x89; x50; x4e; x47].

(** A host on which each of [dirs] is a directory that holds no directory
    and nothing else can be written: files can be opened directly in one
    of [dirs], nowhere else. *)
Definition in_dirs (dirs : list string) (path : string) : bool :=
  existsb (fun dir => directly_in dir path) dirs.

(** The host of the examples: the application runs in [/srv/app], its
    upload directory is there. *)
Definition srv : string -> bool := in_dirs ["/srv/app/uploads"].

(** ** C1: identifier lookup *)

Lemma resolve_sound prop_id c d :
  resolve prop_id c = Some d ->
  d ∈ c /\
  match ObjectId_of_str prop_id with
  | Some o => _id d = o
  | None => fields d !! "property_id" = Some (VStr prop_id)
  end.
Proof.
  unfold resolve, by_property_id. destruct (ObjectId_of_str prop_id) as [o|];
    intros H; apply first_match_Some in H as [Hin Hm]; split; try assumption.
  - apply matches_id, Hm.
  - apply matches_property_id, Hm.
Qed.

(** When no stored [property_id] is valid ObjectId syntax (as under the
    schema's [max_length=20]), the two resolvers agree. *)
Lemma resolve_spec_agrees prop_id c :
  (forall d s, d ∈ c -> fields d !! "property_id" = Some (VStr s) ->
               ObjectId_of_str s = None) ->
  resolve_spec prop_id c = resolve prop_id c.
Proof.
  intros Hkeys. unfold resolve_spec, resolve, by_store_id.
  destruct (ObjectId_of_str prop_id) as [o|] eqn:Ho; simpl; [|reflexivity].
  destruct (first_match [IdIs o] c); [reflexivity|].
  unfold by_property_id. apply first_match_None, Forall_forall.
  intros d Hd. destruct (matches _ d) eqn:Hm; [|reflexivity].
  apply matches_property_id in Hm. rewrite (Hkeys d prop_id Hd Hm) in Ho.
  discriminate.
Qed.

(** C1, counterexample.  A stored property whose [property_id] is
    [aaaaaaaaaaaaaaaaaaaaaaaa] (valid identifier syntax, no document has it
    as [_id]): the specification's resolver finds it through the
    [property_id] fallback, the four handlers answer NotFound. *)
Lemma lookup_no_fallback_after_miss :
  resolve_spec hex_key (property (db (world_of [listing hex_key])))
  = Some (listing hex_key)
  /\ fst (get_property hex_key (world_of [listing hex_key]))
     = Raised Property_not_found
  /\ fst (update_property "/srv/app" srv hex_key None None None
            (Some 5000%float) None None None None (world_of [listing hex_key]))
     = Raised Property_not_found
  /\ fst (delete_property hex_key (world_of [listing hex_key]))
     = Raised Property_not_found
  /\ fst (contact_owner oid_b hex_key enquiry (world_of [listing hex_key]))
     = Raised Property_not_found.
Proof. repeat split. Qed.

(** C1, amended.  Every lookup of a property by an identifier string uses
    one key: the store identifier when the string is valid identifier
    syntax, the [property_id] otherwise ([resolve]).  [get] returns the
    document found, and each of [get], [update], [delete] and [contact]
    fails with NotFound exactly when that one lookup finds no match. *)
Theorem lookup_uses_one_key cwd may_open generated prop_id title city locality
    rent_price area_sqft furnishing contact_details image payload w :
  get_property prop_id w
  = match resolve prop_id (property (db w)) with
    | Some d => (Ok (rendered d), w)
    | None => (Raised Property_not_found, w)
    end
  /\ (fst (update_property cwd may_open prop_id title city locality rent_price
             area_sqft furnishing contact_details image w)
      = Raised Property_not_found
      <-> resolve prop_id (property (db w)) = None)
  /\ (fst (delete_property prop_id w) = Raised Property_not_found
      <-> resolve prop_id (property (db w)) = None)
  /\ (fst (contact_owner generated prop_id payload w) = Raised Property_not_found
      <-> resolve prop_id (property (db w)) = None).
Proof.
  split; [apply get_property_eval|].
  rewrite delete_property_eval, contact_owner_eval.
  destruct (resolve prop_id (property (db w))) as [d|] eqn:Hr.
  - rewrite (update_property_found _ _ _ _ _ _ _ _ _ _ _ _ _ Hr).
    repeat split; try discriminate.
    + destruct image as [img|]; cbv zeta.
      * destruct (owner_key d prop_id); [|discriminate].
        destruct (may_open _); [|discriminate].
        destruct (area_fits area_sqft); discriminate.
      * destruct (size _ =? 0)%nat; [discriminate|].
        destruct (area_fits area_sqft); discriminate.
    + destruct (holds_id generated _); discriminate.
  - rewrite update_property_missing by assumption. repeat split.
Qed.

(** ** C2, C10: a duplicate [property_id] *)

Lemma by_property_id_stored property_id c d :
  d ∈ c -> fields d !! "property_id" = Some (VStr property_id) ->
  is_Some (by_property_id property_id c).
Proof.
  intros Hd Hp. apply (first_match_elem _ _ d Hd). apply matches_property_id, Hp.
Qed.

(** C2, counterexample.  The property [a/b] is stored; a second create
    request for [a/b] comes with an image, whose file would be
    [/srv/app/uploads/a/b_front.png].  The upload directory holds no
    directory [a], [open] fails, and the request ends with that error
    before the uniqueness check: not with Conflict. *)
Lemma create_duplicate_write_fails :
  by_property_id "a/b" (property (db (world_of [listing "a/b"])))
  = Some (listing "a/b")
  /\ upload_path "/srv/app" "a/b" photo = "/srv/app/uploads/a/b_front.png"
  /\ create_property "/srv/app" srv oid_b "a/b" "Loft" "Pune" "Aundh" 9000 400
       "furnished" "mail" "u9" (Some photo) (world_of [listing "a/b"])
     = (Raised OSError, world_of [listing "a/b"]).
Proof. repeat split. Qed.

(** C2, amended.  A create request whose [property_id] is that of a stored
    property fails: with Conflict (HTTP 400) when it carries no image or
    the host lets its image file be opened, with the error of the failed
    [open] otherwise.  In every case the document store is left as it
    was. *)
Theorem create_duplicate_is_conflict cwd may_open generated property_id title
    city locality rent_price area_sqft furnishing contact_details owner_id
    image w d :
  d ∈ property (db w) ->
  fields d !! "property_id" = Some (VStr property_id) ->
  fst (create_property cwd may_open generated property_id title city locality
         rent_price area_sqft furnishing contact_details owner_id image w)
  = Raised (if image_opens may_open cwd property_id image
            then Conflict else OSError)
  /\ db (snd (create_property cwd may_open generated property_id title city
                locality rent_price area_sqft furnishing contact_details
                owner_id image w))
     = db w.
Proof.
  intros Hd Hp. rewrite create_property_eval. cbv zeta.
  destruct (image_opens may_open cwd property_id image); [|split; reflexivity].
  destruct (by_property_id_stored _ _ _ Hd Hp) as [d' ->]. split; reflexivity.
Qed.

Lemma create_duplicate_is_conflict_witness :
  fst (create_property "/srv/app" srv oid_b "P-001" "Loft" "Pune" "Aundh" 9000
         400 "furnished" "mail" "u9" (Some photo) (world_of [listing "P-001"]))
  = Raised Conflict
  /\ db (snd (create_property "/srv/app" srv oid_b "P-001" "Loft" "Pune"
                "Aundh" 9000 400 "furnished" "mail" "u9" (Some photo)
                (world_of [listing "P-001"])))
     = db (world_of [listing "P-001"]).
Proof.
  apply (create_duplicate_is_conflict "/srv/app" srv oid_b "P-001" "Loft" "Pune"
           "Aundh" 9000 400 "furnished" "mail" "u9" (Some photo)
           (world_of [listing "P-001"]) (listing "P-001")).
  - apply list_elem_of_here.
  - reflexivity.
Defined.

(** *** Where the image goes *)





Lemma append_assoc (a b c : string) : (a +:+ b) +:+ c = a +:+ b +:+ c.
Proof.
  induction a as [|x a IH]; [reflexivity|].
  change (String x ((a +:+ b) +:+ c) = String x (a +:+ b +:+ c)).
  rewrite IH. reflexivity.
Qed.






Example saved_image_path :
  files (snd (create_property "/srv/app" srv oid_b "P-001" "Loft" "Pune" "Aundh"
                9000 400 "furnished" "mail" "u9" (Some photo)
                (world_of [listing "P-001"])))
  !! "/srv/app/uploads/P-001_front.png" = Some (content photo).
Proof. reflexivity. Qed.

(** ** C3: numeric validation *)

(** C3, at the failing input.  [rent_price = -1] and [area_sqft = -5]
    violate the [ge=0] constraints of the [Property] schema, yet the
    create handler inserts the document and returns it. *)
Theorem create_stores_negative_numbers :
  Property_numeric_ok (-1) (-5) = false
  /\ create_property "/srv/app" srv oid_a "P-001" "Garden flat" "Pune" "Baner"
       (-1) (-5) "semi" "call 555-0100" "u42" None (world_of [])
     = (Ok (<["_id" := VStr "0123456789abcdef01234567"]>
              (created_fields "P-001" "Garden flat" "Pune" "Baner" (-1) (-5)
                 "semi" "call 555-0100" "u42" VNone)),
        world_of [Document oid_a
                    (created_fields "P-001" "Garden flat" "Pune" "Baner"
                       (-1) (-5) "semi" "call 555-0100" "u42" VNone)]).
Proof. split; reflexivity. Qed.

(** ** C9: the fields of a created document *)

Definition created_keys : gset string :=
  list_to_set
    ["property_id"; "title"; "city"; "locality"; "rent_price"; "area_sqft";
     "furnishing"; "contact_details"; "image_url"; "owner_id"].

Lemma created_fields_dom property_id title city locality rent_price area_sqft
    furnishing contact_details owner_id image_url :
  dom (created_fields property_id title city locality rent_price area_sqft
         furnishing contact_details owner_id image_url) = created_keys.
Proof.
  unfold created_fields, created_keys. rewrite !dom_insert_L, dom_empty_L.
  simpl. set_solver.
Qed.

(** C9, counterexample.  The document inserted for a create request has
    neither [created_at] nor [updated_at]. *)
Lemma created_document_lacks_timestamps :
  (fun d => (fields d !! "created_at", fields d !! "updated_at"))
    <$> property (db (snd (create_property "/srv/app" srv oid_a "P-001"
                             "Garden flat" "Pune" "Baner" 12000 650 "semi"
                             "call 555-0100" "u42" None (world_of []))))
  = [(None, None)].
Proof. reflexivity. Qed.

(** C9, amended.  Every property document inserted by the create operation
    holds the store-assigned [_id] and exactly the fields [property_id],
    [title], [city], [locality], [rent_price], [area_sqft], [furnishing],
    [contact_details], [image_url] and [owner_id]; it has no [created_at]
    and no [updated_at]. *)
Theorem created_document_fields cwd may_open generated property_id title city
    locality rent_price area_sqft furnishing contact_details owner_id image w
    body :
  fst (create_property cwd may_open generated property_id title city locality
         rent_price area_sqft furnishing contact_details owner_id image w)
  = Ok body ->
  exists d,
    property (db (snd (create_property cwd may_open generated property_id
                         title city locality rent_price area_sqft furnishing
                         contact_details owner_id image w)))
    = property (db w) ++ [d]
    /\ _id d = generated
    /\ dom (fields d) = created_keys
    /\ fields d !! "created_at" = None
    /\ fields d !! "updated_at" = None.
Proof.
  rewrite create_property_eval. cbv zeta.
  destruct (image_opens may_open cwd property_id image); [|discriminate].
  destruct (by_property_id property_id (property (db w))); [discriminate|].
  destruct (int64 area_sqft); [|discriminate].
  destruct (holds_id generated (property (db w))); [discriminate|].
  intros _. eexists. split; [reflexivity|]. split; [reflexivity|].
  split; [apply created_fields_dom|]. split; reflexivity.
Qed.

Lemma created_document_fields_witness :
  exists d,
    property (db (snd (create_property "/srv/app" srv oid_a "P-001"
                         "Garden flat" "Pune" "Baner" 12000 650 "semi"
                         "call 555-0100" "u42" (Some photo) (world_of []))))
    = property (db (world_of [])) ++ [d]
    /\ _id d = oid_a
    /\ dom (fields d) = created_keys
    /\ fields d !! "created_at" = None
    /\ fields d !! "updated_at" = None.
Proof.
  apply (created_document_fields "/srv/app" srv oid_a "P-001" "Garden flat"
           "Pune" "Baner" 12000 650 "semi" "call 555-0100" "u42" (Some photo)
           (world_of [])
           (<["_id" := VStr "0123456789abcdef01234567"]>
              (created_fields "P-001" "Garden flat" "Pune" "Baner" 12000 650
                 "semi" "call 555-0100" "u42"
                 (VStr "/uploads/P-001_front.png")))).
  reflexivity.
Defined.

(** ** C5, C6: partial update *)

Lemma set_fields_empty d : set_fields ∅ d = d.
Proof.
  unfold set_fields. rewrite (left_id_L ∅ (∪)). destruct d; reflexivity.
Qed.

Lemma updated_world_collections prop_id updates w existing :
  resolve prop_id (property (db w)) = Some existing ->
  (exists pre post,
     property (db w) = pre ++ existing :: post
     /\ property (db (updated_world prop_id updates w))
        = pre ++ set_fields updates existing :: post)
  /\ user (db (updated_world prop_id updates w)) = user (db w)
  /\ contactmessage (db (updated_world prop_id updates w))
     = contactmessage (db w).
Proof.
  intros Hfound. rewrite <- first_match_resolved in Hfound.
  destruct (first_match_split _ _ _ Hfound) as (pre & post & Hc & Hpre & Hd).
  split; [|split; reflexivity].
  exists pre, post. split; [assumption|]. simpl. rewrite Hc.
  apply update_first_app; assumption.
Qed.

Lemma supplied_area title city locality rent_price z furnishing
    contact_details image_url :
  supplied_fields title city locality rent_price (Some z) furnishing
    contact_details image_url !! "area_sqft" = Some (VInt z).
Proof.
  unfold supplied_fields.
  rewrite omap_pairs_lookup
    by (apply (bool_decide_unpack _); vm_compute; exact I).
  reflexivity.
Qed.

(** C5, counterexample.  Two update requests on a stored property that
    supply a proper subset of the fields and apply none of them: one
    supplies only [area_sqft = 2^63], which the driver cannot encode; the
    other supplies [rent_price = 5000] and an image whose file,
    [/srv/app/uploads/a/b_front.png], cannot be opened.  Each ends with
    the exception and the stored document is as it was. *)
Lemma update_raises_and_applies_nothing :
  update_property "/srv/app" srv "P-001" None None None None
    (Some (2 ^ 63)%Z) None None None (world_of [listing "P-001"])
  = (Raised OverflowError, world_of [listing "P-001"])
  /\ update_property "/srv/app" srv "a/b" None None None (Some 5000%float) None
       None None (Some photo) (world_of [listing "a/b"])
     = (Raised OSError, world_of [listing "a/b"]).
Proof. split; reflexivity. Qed.

(** C5, amended.  An update request on an existing property whose image,
    if any, the host lets be opened and whose [area_sqft], if supplied,
    fits in 8 bytes applies exactly the fields it supplies: in the stored
    document every supplied field (and [image_url] when an image comes
    with the request) has its new value, every other field has the value
    it had; the other documents and collections are as they were, and the
    document is returned.  Otherwise the request ends with the exception
    ([OSError] from [open], or [OverflowError] from the driver) and the
    document store is as it was.  For a request with an image, [pid] is
    the text the stored [property_id] renders as in the file name. *)
Theorem update_applies_supplied_fields cwd may_open prop_id title city locality
    rent_price area_sqft furnishing contact_details image w existing pid :
  resolve prop_id (property (db w)) = Some existing ->
  (image <> None -> owner_key existing prop_id = Some pid) ->
  (image_opens may_open cwd pid image = true ->
   area_fits area_sqft = true ->
   exists d',
    resolve prop_id
      (property (db (snd (update_property cwd may_open prop_id title city
                            locality rent_price area_sqft furnishing
                            contact_details image w))))
    = Some d'
    /\ _id d' = _id existing
    /\ (forall k v,
          supplied_fields title city locality rent_price area_sqft furnishing
            contact_details (image_url_of pid <$> image) !! k = Some v ->
          fields d' !! k = Some v)
    /\ (forall k,
          supplied_fields title city locality rent_price area_sqft furnishing
            contact_details (image_url_of pid <$> image) !! k = None ->
          fields d' !! k = fields existing !! k)
    /\ (exists pre post,
          property (db w) = pre ++ existing :: post
          /\ property (db (snd (update_property cwd may_open prop_id title
                                  city locality rent_price area_sqft
                                  furnishing contact_details image w)))
             = pre ++ d' :: post)
    /\ user (db (snd (update_property cwd may_open prop_id title city locality
                        rent_price area_sqft furnishing contact_details
                        image w)))
       = user (db w)
    /\ contactmessage (db (snd (update_property cwd may_open prop_id title
                                  city locality rent_price area_sqft
                                  furnishing contact_details image w)))
       = contactmessage (db w)
    /\ (supplied_fields title city locality rent_price area_sqft furnishing
          contact_details (image_url_of pid <$> image) <> ∅ ->
        fst (update_property cwd may_open prop_id title city locality
               rent_price area_sqft furnishing contact_details image w)
        = Ok (rendered d')))
  /\ (image_opens may_open cwd pid image = false ->
      update_property cwd may_open prop_id title city locality rent_price
        area_sqft furnishing contact_details image w
      = (Raised OSError, w))
  /\ (image_opens may_open cwd pid image = true ->
      area_fits area_sqft = false ->
      fst (update_property cwd may_open prop_id title city locality rent_price
             area_sqft furnishing contact_details image w)
      = Raised OverflowError
      /\ db (snd (update_property cwd may_open prop_id title city locality
                    rent_price area_sqft furnishing contact_details image w))
         = db w).
Proof.
  intros Hfound Hkey.
  rewrite (update_property_found _ _ _ _ _ _ _ _ _ _ _ _ _ Hfound).
  set (supplied := supplied_fields title city locality rent_price area_sqft
                     furnishing contact_details (image_url_of pid <$> image)).
  split; [intros Hopen Hfits | split; [intros Hopen | intros Hopen Hfits]].
  2:{ destruct image as [img|]; [|discriminate].
      rewrite (Hkey ltac:(discriminate)). cbv zeta.
      cbn [image_opens] in Hopen. rewrite Hopen. reflexivity. }
  2:{ destruct area_sqft as [z|]; [|discriminate].
      destruct image as [img|].
      - rewrite (Hkey ltac:(discriminate)). cbv zeta.
        cbn [image_opens] in Hopen. rewrite Hopen, Hfits. split; reflexivity.
      - cbv zeta. destruct (size _ =? 0)%nat eqn:Hsize.
        + apply Nat.eqb_eq, map_size_empty_iff in Hsize.
          pose proof (supplied_area title city locality rent_price z
                        furnishing contact_details None) as Hz.
          rewrite Hsize, lookup_empty in Hz. discriminate.
        + rewrite Hfits. split; reflexivity. }
  assert (Hpid : supplied !! "property_id" = None).
  { apply supplied_fields_other.
    apply (bool_decide_unpack _); vm_compute; exact I. }
  assert (Hset : forall k,
            fields (set_fields supplied existing) !! k
            = match supplied !! k with
              | Some v => Some v
              | None => fields existing !! k
              end).
  { intros k. unfold set_fields; simpl. rewrite lookup_union.
    destruct (supplied !! k), (fields existing !! k); reflexivity. }
  assert (Hdone : forall w',
            property (db w') = property (db w) -> user (db w') = user (db w) ->
            contactmessage (db w') = contactmessage (db w) ->
            exists d',
              resolve prop_id (property (db (updated_world prop_id supplied w')))
              = Some d'
              /\ _id d' = _id existing
              /\ (forall k v, supplied !! k = Some v -> fields d' !! k = Some v)
              /\ (forall k, supplied !! k = None ->
                            fields d' !! k = fields existing !! k)
              /\ (exists pre post,
                    property (db w) = pre ++ existing :: post
                    /\ property (db (updated_world prop_id supplied w'))
                       = pre ++ d' :: post)
              /\ user (db (updated_world prop_id supplied w')) = user (db w)
              /\ contactmessage (db (updated_world prop_id supplied w'))
                 = contactmessage (db w)
              /\ (supplied <> ∅ ->
                  Ok (A := dict) (rendered (set_fields supplied existing))
                  = Ok (rendered d'))).
  { intros w' Hp Hu Hc. exists (set_fields supplied existing).
    assert (Hfound' : resolve prop_id (property (db w')) = Some existing)
      by (rewrite Hp; exact Hfound).
    destruct (updated_world_collections prop_id supplied w' existing Hfound')
      as ((pre & post & Hsplit & Hnew) & Hu' & Hc').
    split; [apply resolve_updated; assumption|]. split; [reflexivity|].
    split; [intros k v Hk; rewrite Hset, Hk; reflexivity|].
    split; [intros k Hk; rewrite Hset, Hk; reflexivity|].
    split; [exists pre, post; rewrite <- Hp; split; assumption|].
    split; [congruence|]. split; [congruence | reflexivity]. }
  destruct image as [img|].
  - rewrite (Hkey ltac:(discriminate)). cbv zeta.
    cbn [image_opens] in Hopen. rewrite Hopen, Hfits. cbn [fst snd].
    apply Hdone; reflexivity.
  - cbv zeta. change (image_url_of pid <$> None) with (@None string) in *.
    fold supplied. destruct (size supplied =? 0)%nat eqn:Hsize.
    + apply Nat.eqb_eq, map_size_empty_iff in Hsize. cbn [fst snd].
      exists existing. split; [assumption|]. split; [reflexivity|].
      rewrite Hsize.
      split; [intros k v Hk; rewrite lookup_empty in Hk; discriminate|].
      split; [reflexivity|].
      split.
      { rewrite <- first_match_resolved in Hfound.
        destruct (first_match_split _ _ _ Hfound) as (pre & post & Hc & _).
        exists pre, post. split; assumption. }
      split; [reflexivity|]. split; [reflexivity|]. intros Hne. destruct Hne.
      reflexivity.
    + rewrite Hfits. cbn [fst snd]. apply Hdone; reflexivity.
Qed.

(** The request of the specification's example: only [rent_price = 5000]. *)
Definition rent_only (w : world) : result dict * world :=
  update_property "/srv/app" srv "P-001" None None None (Some 5000%float) None
    None None None w.

Definition rent_only_fields : dict :=
  supplied_fields None None None (Some 5000%float) None None None
    (image_url_of "P-001" <$> None).

Lemma update_applies_supplied_fields_witness :
  exists d',
    resolve "P-001" (property (db (snd (rent_only (world_of [listing "P-001"]))))) = Some d'
    /\ _id d' = _id (listing "P-001")
    /\ (forall k v, rent_only_fields !! k = Some v -> fields d' !! k = Some v)
    /\ (forall k, rent_only_fields !! k = None ->
                  fields d' !! k = fields (listing "P-001") !! k)
    /\ (exists pre post,
          property (db (world_of [listing "P-001"]))
          = pre ++ listing "P-001" :: post
          /\ property (db (snd (rent_only (world_of [listing "P-001"]))))
             = pre ++ d' :: post)
    /\ user (db (snd (rent_only (world_of [listing "P-001"]))))
       = user (db (world_of [listing "P-001"]))
    /\ contactmessage (db (snd (rent_only (world_of [listing "P-001"]))))
       = contactmessage (db (world_of [listing "P-001"]))
    /\ (rent_only_fields <> ∅ ->
        fst (rent_only (world_of [listing "P-001"])) = Ok (rendered d')).
Proof.
  apply (proj1 (update_applies_supplied_fields "/srv/app" srv "P-001" None None
                  None (Some 5000%float) None None None None
                  (world_of [listing "P-001"]) (listing "P-001") "P-001"
                  eq_refl (fun _ => eq_refl))).
  - reflexivity.
  - reflexivity.
Defined.

Example rent_only_result :
  property (db (snd (rent_only (world_of [listing "P-001"]))))
  = [Document oid_a
       (created_fields "P-001" "Garden flat" "Pune" "Baner" 5000 650 "semi"
          "call 555-0100" "u42" VNone)].
Proof. reflexivity. Qed.

(** C6.  An update request on an existing property that supplies no field
    and no image returns [{"message": "No changes"}] and leaves the world,
    hence the stored document, as it was. *)
Theorem empty_update_is_noop cwd may_open prop_id w existing :
  resolve prop_id (property (db w)) = Some existing ->
  update_property cwd may_open prop_id None None None None None None None None w
  = (Ok No_changes, w).
Proof.
  intros Hfound.
  rewrite (update_property_found _ _ _ _ _ _ _ _ _ _ _ _ _ Hfound).
  reflexivity.
Qed.

Lemma empty_update_is_noop_witness :
  update_property "/srv/app" srv "0123456789abcdef01234567" None None None None
    None None None None (world_of [listing "P-001"])
  = (Ok No_changes, world_of [listing "P-001"]).
Proof.
  apply (empty_update_is_noop "/srv/app" srv "0123456789abcdef01234567"
           (world_of [listing "P-001"]) (listing "P-001")).
  reflexivity.
Defined.

(** ** C7: contacting the owner *)

Lemma resolve_spec_None prop_id c :
  by_store_id prop_id c = None -> by_property_id prop_id c = None ->
  resolve prop_id c = None.
Proof.
  unfold by_store_id, resolve. destruct (ObjectId_of_str prop_id); simpl; auto.
Qed.

(** C7, counterexample.  The property with [property_id]
    [aaaaaaaaaaaaaaaaaaaaaaaa] exists and the message is within 1-2000
    characters, yet the contact request addressed to that [property_id]
    fails with NotFound and inserts nothing. *)
Lemma contact_no_fallback_after_miss :
  by_property_id hex_key (property (db (world_of [listing hex_key])))
  = Some (listing hex_key)
  /\ message_ok enquiry = true
  /\ contact_owner oid_b hex_key enquiry (world_of [listing hex_key])
     = (Raised Property_not_found, world_of [listing hex_key]).
Proof. repeat split. Qed.

(** C7, amended.  A contact request addressing a property that exists by
    neither lookup key fails with NotFound and inserts no ContactMessage.
    When the identifier resolves (by store identifier if it is valid
    identifier syntax, by [property_id] otherwise) and the message length
    is within 1-2000, exactly one ContactMessage, the request's payload
    under a newly generated identifier, is appended and the
    acknowledgment [{"sent": true}], which carries no identifier, is
    returned. *)
Theorem contact_inserts_when_resolved generated prop_id payload w :
  (by_store_id prop_id (property (db w)) = None ->
   by_property_id prop_id (property (db w)) = None ->
   contact_owner generated prop_id payload w = (Raised Property_not_found, w))
  /\ (forall d,
        resolve prop_id (property (db w)) = Some d ->
        message_ok payload = true ->
        holds_id generated (contactmessage (db w)) = false ->
        contact_owner generated prop_id payload w
        = (Ok {["sent" := VBool true]},
           World (Database (user (db w)) (property (db w))
                    (contactmessage (db w)
                       ++ [Document generated (model_dump payload)]))
                 (files w))).
Proof.
  rewrite contact_owner_eval. split.
  - intros Hid Hpid. rewrite (resolve_spec_None _ _ Hid Hpid). reflexivity.
  - intros d -> _ ->. reflexivity.
Qed.

Lemma contact_inserts_when_resolved_witness :
  contact_owner oid_b "P-001" enquiry (world_of [listing "P-001"])
  = (Ok {["sent" := VBool true]},
     World (Database [] [listing "P-001"]
              [Document oid_b (model_dump enquiry)]) ∅).
Proof.
  apply (proj2 (contact_inserts_when_resolved oid_b "P-001" enquiry
                  (world_of [listing "P-001"])) (listing "P-001")).
  - reflexivity.
  - reflexivity.
  - reflexivity.
Defined.

Example contact_unknown_property :
  contact_owner oid_b "P-404" enquiry (world_of [listing "P-001"])
  = (Raised Property_not_found, world_of [listing "P-001"]).
Proof. reflexivity. Qed.

(** ** C8: password verification at login *)

Lemma verify_unidentified bcrypt_verify secret h w :
  bcrypt_identify h = false ->
  pwd_context_verify bcrypt_verify secret (VStr h) w = (Raised UnknownHashError, w).
Proof. intros H. unfold pwd_context_verify. rewrite H. reflexivity. Qed.

(** A user document without [hashed_password]. *)
Definition bob : document := Document oid_a {["username" := VStr "bob"]}.

Definition world_of_users (users : list document) : world :=
  World (Database users [] []) ∅.

(** C8, at the failing input.  The stored user has no [hashed_password],
    so [login] verifies against the empty string: no scheme identifies
    it, [pwd_context.verify] raises [UnknownHashError], and the handler
    ends with that exception instead of the InvalidCredentials response. *)
Theorem login_without_hash_raises bcrypt_verify :
  pwd_context_verify bcrypt_verify "secret" (VStr "") (world_of_users [bob])
  = (Raised UnknownHashError, world_of_users [bob])
  /\ login bcrypt_verify "bob" "secret" (world_of_users [bob])
     = (Raised UnknownHashError, world_of_users [bob]).
Proof. split; reflexivity. Qed.

(** ** The matcher against the language of a regex *)

Section Language.

Variable caseless : bool.

(** The words a regex denotes. *)
Inductive denotes : regex -> list ascii -> Prop :=
  | den_eps : denotes Eps []
  | den_chr c x : ci_eqb caseless c x = true -> denotes (Chr c) [x]
  | den_dot x : code x <> 10%N -> denotes Dot [x]
  | den_cat r1 r2 u v :
      denotes r1 u -> denotes r2 v -> denotes (Cat r1 r2) (u ++ v)
  | den_alt_l r1 r2 u : denotes r1 u -> denotes (Alt r1 r2) u
  | den_alt_r r1 r2 u : denotes r2 u -> denotes (Alt r1 r2) u
  | den_star_nil r : denotes (Star r) []
  | den_star_cons r u v :
      denotes r u -> denotes (Star r) v -> denotes (Star r) (u ++ v).

Lemma nullable_denotes r : nullable r = true <-> denotes r [].
Proof.
  induction r as [| |c| |r1 IH1 r2 IH2|r1 IH1 r2 IH2|r IH]; simpl.
  - split; [discriminate | inversion 1].
  - split; [constructor | reflexivity].
  - split; [discriminate | inversion 1].
  - split; [discriminate | inversion 1].
  - rewrite andb_true_iff, IH1, IH2. split.
    + intros [H1 H2]. exact (den_cat _ _ [] [] H1 H2).
    + inversion 1; subst.
      match goal with H : _ ++ _ = [] |- _ => apply app_eq_nil in H as [-> ->] end.
      split; assumption.
  - rewrite orb_true_iff, IH1, IH2. split.
    + intros [H|H]; [apply den_alt_l | apply den_alt_r]; assumption.
    + inversion 1; subst; [left | right]; assumption.
  - split; [constructor | reflexivity].
Qed.

Lemma star_cons_inv r x u :
  denotes (Star r) (x :: u) ->
  exists u1 u2, u = u1 ++ u2 /\ denotes r (x :: u1) /\ denotes (Star r) u2.
Proof.
  intros H. remember (Star r) as e eqn:He. remember (x :: u) as s eqn:Hs.
  revert u Hs. induction H as [| | | | | | |r' u' v' H1 _ H2 IH2];
    intros u0 Hs; try discriminate.
  injection He as ->. destruct u' as [|y u'].
  - apply IH2; [reflexivity | assumption].
  - simpl in Hs. injection Hs as -> <-. exists u', v'. repeat split; assumption.
Qed.

Lemma deriv_denotes x r u :
  denotes (deriv caseless x r) u <-> denotes r (x :: u).
Proof.
  revert u. induction r as [| |c| |r1 IH1 r2 IH2|r1 IH1 r2 IH2|r IH];
    intros u; simpl.
  - split; inversion 1.
  - split; inversion 1.
  - destruct (ci_eqb caseless c x) eqn:E; split.
    + inversion 1; subst. constructor; assumption.
    + inversion 1; subst. constructor.
    + inversion 1.
    + inversion 1; subst. congruence.
  - destruct (code x =? 10)%N eqn:E; split.
    + inversion 1.
    + inversion 1; subst. apply N.eqb_eq in E. contradiction.
    + inversion 1; subst. constructor. apply N.eqb_neq, E.
    + inversion 1; subst. constructor.
  - assert (Hcat : denotes (Cat (deriv caseless x r1) r2) u
                   <-> exists u1 u2, u = u1 ++ u2 /\ denotes r1 (x :: u1)
                                     /\ denotes r2 u2).
    { split.
      - inversion 1; subst. eexists _, _. split; [reflexivity|].
        split; [apply IH1|]; assumption.
      - intros (u1 & u2 & -> & H1 & H2). constructor; [apply IH1|]; assumption. }
    assert (Hsplit : denotes (Cat r1 r2) (x :: u)
                     <-> (exists u1 u2, u = u1 ++ u2 /\ denotes r1 (x :: u1)
                                        /\ denotes r2 u2)
                         \/ (denotes r1 [] /\ denotes r2 (x :: u))).
    { split.
      - inversion 1 as [| | |? ? a b H1 H2 [Hr1 Hr2] Hab| | | |]; subst.
        destruct a as [|y a].
        + right. simpl in Hab. subst. split; assumption.
        + left. simpl in Hab. injection Hab as -> <-. eauto.
      - intros [(u1 & u2 & -> & H1 & H2)|[H1 H2]].
        + exact (den_cat _ _ (x :: u1) u2 H1 H2).
        + exact (den_cat _ _ [] (x :: u) H1 H2). }
    rewrite Hsplit. destruct (nullable r1) eqn:En.
    + split.
      * inversion 1; subst; [left; apply Hcat; assumption|].
        right. split; [apply nullable_denotes, En | apply IH2; assumption].
      * intros [H|[_ H]]; [apply den_alt_l, Hcat, H | apply den_alt_r, IH2, H].
    + rewrite Hcat. split; [auto|]. intros [H|[H _]]; [assumption|].
      apply nullable_denotes in H. congruence.
  - split.
    + inversion 1; subst; [apply den_alt_l, IH1 | apply den_alt_r, IH2];
        assumption.
    + inversion 1; subst; [apply den_alt_l, IH1 | apply den_alt_r, IH2];
        assumption.
  - split.
    + inversion 1 as [| | |? ? a b H1 H2| | | |]; subst.
      exact (den_star_cons _ (x :: a) b (proj1 (IH a) H1) H2).
    + intros H. apply star_cons_inv in H as (u1 & u2 & -> & H1 & H2).
      constructor; [apply IH|]; assumption.
Qed.

(** [prefix_match] finds exactly the prefixes in the language. *)
Lemma prefix_match_denotes r s :
  prefix_match caseless r s = true
  <-> exists u v, s = u ++ v /\ denotes r u.
Proof.
  revert r. induction s as [|x s IH]; intros r; simpl.
  - rewrite orb_false_r, nullable_denotes. split.
    + intros H. exists [], []. split; [reflexivity | assumption].
    + intros (u & v & Huv & H). symmetry in Huv.
      apply app_eq_nil in Huv as [-> _]. assumption.
  - rewrite orb_true_iff, nullable_denotes, IH. split.
    + intros [H|(u & v & -> & H)].
      * exists [], (x :: s). split; [reflexivity | assumption].
      * exists (x :: u), v. split; [reflexivity | apply deriv_denotes, H].
    + intros (u & v & Huv & H). destruct u as [|y u].
      * left. assumption.
      * right. simpl in Huv. injection Huv as <- ->.
        exists u, v. split; [reflexivity | apply deriv_denotes, H].
Qed.

(** [search] finds exactly the strings with a factor in the language. *)
Lemma search_denotes r s :
  search caseless r s = true
  <-> exists p u v, s = p ++ u ++ v /\ denotes r u.
Proof.
  induction s as [|x s IH]; cbn [search].
  - rewrite orb_false_r, prefix_match_denotes. split.
    + intros (u & v & Huv & H). exists [], u, v. split; assumption.
    + intros (p & u & v & Hs & H). destruct p; [|discriminate].
      exists u, v. split; assumption.
  - rewrite orb_true_iff, prefix_match_denotes, IH. split.
    + intros [(u & v & Huv & H)|(p & u & v & -> & H)].
      * exists [], u, v. split; assumption.
      * exists (x :: p), u, v. split; [reflexivity | assumption].
    + intros (p & u & v & Hs & H). destruct p as [|y p].
      * left. exists u, v. split; assumption.
      * right. simpl in Hs. injection Hs as <- ->. eauto.
Qed.

End Language.

(** ** C4: the [q] filter of [list_properties] *)

(** [q] is a prefix of [s], ignoring case. *)
Fixpoint ci_prefix (q s : list ascii) : bool :=
  match q, s with
  | [], _ => true
  | _ :: _, [] => false
  | a :: q', b :: s' => Ascii.eqb (lower a) (lower b) && ci_prefix q' s'
  end.

(** [q] occurs in [s] as a case-insensitive substring. *)
Fixpoint ci_substring (q s : list ascii) : bool :=
  ci_prefix q s ||
  match s with
  | [] => false
  | _ :: s' => ci_substring q s'
  end.
















Lemma stringify_each_stored ds w :
  stringify_each (to_dict <$> ds) w = (Ok (rendered <$> ds), w).
Proof.
  induction ds as [|d ds IH]; [reflexivity|].
  rewrite !fmap_cons. cbn [stringify_each]. unfold bind.
  rewrite stringify_to_dict, IH. reflexivity.
Qed.


(** A second property of the same city. *)
Definition loft : document :=
  Document oid_b
    (created_fields "P-002" "Loft" "Pune" "Aundh" 9000 400 "furnished" "mail"
       "u9" VNone).





Example list_q_found :
  fst (list_properties (Some "pUn") None None None None 100
         (world_of [listing "P-001"]))
  = Ok [rendered (listing "P-001")].
Proof. reflexivity. Qed.

Example list_q_not_found :
  fst (list_properties (Some "mumbai") None None None None 100
         (world_of [listing "P-001"]))
  = Ok [].
Proof. reflexivity. Qed.

(** Beyond ASCII: [e] with an acute accent (233) is found in [CAFE] written
    with the capital letter (201), and the multiplication sign (215) is
    not the division sign (247). *)
Example ci_substring_accent :
  ci_substring [ascii_of_N 233]
    (list_ascii_of_string "CAF" ++ [ascii_of_N 201]) = true
  /\ ci_substring [ascii_of_N 215] [ascii_of_N 247] = false.
Proof. split; reflexivity. Qed.

(** * The rest of main.py *)

(** ** signup *)

Section Signup.

(** [pwd_context.hash]: the hash string it returns for a password, or the
    exception it raises. *)
Variable pwd_context_hash : string -> result string.

Definition hash_password (password : string) : M string :=
  fun w => (pwd_context_hash password, w).

Definition Username_exists : exception :=
  HTTPException 400 "Username already exists".

(** [payload.role if payload.role in ("customer", "landlord") else
    "customer"] *)
Definition resolved_role (role : string) : string :=
  if String.eqb role "customer" || String.eqb role "landlord" then role
  else "customer".

Definition signup (generated : ObjectId) (username email password role : string)
    : M dict :=
  existing <- find_one c_user [FieldIs "username" (IsStr username)] ;;
  if truthy existing then raise Username_exists
  else
    hashed <- hash_password password ;;
    let user_doc : dict :=
      <["username" := VStr username]>
      (<["email" := VStr email]>
      (<["role" := VStr (resolved_role role)]>
      (<["hashed_password" := VStr hashed]> ∅))) in
    uid <- insert_one c_user generated user_doc ;;
    ret (<["_id" := VStr (str_ObjectId uid)]>
         (<["username" := VStr username]>
         (<["role" := default VNone (user_doc !! "role")]> ∅))).

End Signup.

(** The user document [signup] stores. *)
Definition user_fields (username email role hashed : string) : dict :=
  <["username" := VStr username]>
  (<["email" := VStr email]>
  (<["role" := VStr (resolved_role role)]>
  (<["hashed_password" := VStr hashed]> ∅))).

(** What [signup] and [login] answer on success. *)
Definition account (uid : ObjectId) (username role : string) : dict :=
  <["_id" := VStr (str_ObjectId uid)]>
  (<["username" := VStr username]>
  (<["role" := VStr role]> ∅)).

Definition by_username (username : string) (c : collection) : option document :=
  first_match [FieldIs "username" (IsStr username)] c.

Lemma find_one_username username w :
  find_one c_user [FieldIs "username" (IsStr username)] w
  = (Ok (to_dict <$> by_username username (user (db w))), w).
Proof. reflexivity. Qed.

Lemma signup_eval pwd_context_hash generated username email password role w :
  signup pwd_context_hash generated username email password role w =
  match by_username username (user (db w)) with
  | Some _ => (Raised Username_exists, w)
  | None =>
      match pwd_context_hash password with
      | Ok hashed =>
          if holds_id generated (user (db w))
          then (Raised DuplicateKeyError, w)
          else (Ok (account generated username (resolved_role role)),
                World (Database
                         (user (db w)
                            ++ [Document generated
                                  (user_fields username email role hashed)])
                         (property (db w)) (contactmessage (db w)))
                      (files w))
      | Raised e => (Raised e, w)
      | Unmodelled => (Unmodelled, w)
      end
  end.
Proof.
  unfold signup, bind at 1. rewrite find_one_username. cbv beta iota.
  unfold truthy.
  destruct (by_username username (user (db w))) as [d|];
    cbn [fmap option_fmap option_map].
  - rewrite falsy_to_dict. reflexivity.
  - change (negb (falsy None)) with false. cbv beta iota.
    unfold bind at 1, hash_password.
    destruct (pwd_context_hash password) as [hashed| |]; try reflexivity.
    unfold bind, insert_one, holds_id. cbn [get_collection db].
    destruct (existsb _ (user (db w))); [reflexivity|].
    cbn [modify ret set_collection get_collection db files].
    unfold account, user_fields. rewrite lookup_insert_ne by discriminate.
    rewrite lookup_insert_ne by discriminate. rewrite lookup_insert_eq.
    reflexivity.
Qed.

(** ** login, by cases *)

Lemma login_unknown bcrypt_verify username password w :
  by_username username (user (db w)) = None ->
  login bcrypt_verify username password w = (Raised Invalid_credentials, w).
Proof.
  intros H. unfold login, bind at 1. rewrite find_one_username, H. reflexivity.
Qed.

Lemma login_bcrypt bcrypt_verify username password w u h :
  by_username username (user (db w)) = Some u ->
  fields u !! "hashed_password" = Some (VStr h) ->
  bcrypt_identify h = true ->
  login bcrypt_verify username password w =
  match bcrypt_verify password h with
  | Ok true =>
      (Ok (<["_id" := VStr (str_ObjectId (_id u))]>
           (<["username" := VStr username]>
           (<["role" := default (VStr "customer") (fields u !! "role")]> ∅))),
       w)
  | Ok false => (Raised Invalid_credentials, w)
  | Raised e => (Raised e, w)
  | Unmodelled => (Unmodelled, w)
  end.
Proof.
  intros Hu Hh Hid. unfold login, bind at 1.
  rewrite find_one_username, Hu. cbv beta iota.
  cbn [fmap option_fmap option_map]. rewrite falsy_to_dict.
  cbn [default from_option].
  assert (Hname : fields u !! "username" = Some (VStr username)).
  { apply first_match_Some in Hu as [_ Hm].
    unfold matches, clause_holds, field_holds, holds in Hm; simpl in Hm.
    destruct (fields u !! "username") as [[]|]; try discriminate.
    rewrite andb_true_r in Hm. apply String.eqb_eq in Hm. congruence. }
  unfold to_dict, id, bind.
  rewrite (lookup_insert_ne (fields u) "_id" "hashed_password") by discriminate.
  rewrite Hh. cbn [default from_option id]. unfold pwd_context_verify.
  rewrite Hid.
  destruct (bcrypt_verify password h) as [[]| |]; try reflexivity.
  cbn [negb]. rewrite lookup_insert_eq.
  rewrite !(lookup_insert_ne (fields u) "_id") by discriminate.
  rewrite Hname. reflexivity.
Qed.

(** ** Keys *)

(** The text stored under [k], if any. *)
Definition str_field (k : string) (d : document) : option string :=
  match fields d !! k with
  | Some (VStr s) => Some s
  | _ => None
  end.

Definition usernames (c : collection) : list string :=
  omap (str_field "username") c.

Definition property_ids (c : collection) : list string :=
  omap (str_field "property_id") c.

Definition ids (c : collection) : list ObjectId := _id <$> c.

Lemma matches_str_field k s d :
  matches [FieldIs k (IsStr s)] d = true <-> str_field k d = Some s.
Proof.
  unfold matches, clause_holds, field_holds, holds, str_field; simpl.
  rewrite andb_true_r.
  destruct (fields d !! k) as [[]|]; try (split; discriminate).
  rewrite String.eqb_eq. split; congruence.
Qed.

Lemma str_field_elem k s (c : collection) :
  s ∈ omap (str_field k) c <->
  exists d, d ∈ c /\ matches [FieldIs k (IsStr s)] d = true.
Proof.
  rewrite list_elem_of_omap. split; intros (d & Hd & H); exists d;
    (split; [assumption|]); apply matches_str_field; assumption.
Qed.

Lemma first_match_None_field k s (c : collection) :
  first_match [FieldIs k (IsStr s)] c = None <-> s ∉ omap (str_field k) c.
Proof.
  rewrite first_match_None, Forall_forall, str_field_elem. split.
  - intros H (d & Hd & Hm). rewrite (H d Hd) in Hm. discriminate.
  - intros H d Hd. destruct (matches _ d) eqn:E; [|reflexivity].
    destruct H. eauto.
Qed.

Lemma holds_id_false o (c : collection) : holds_id o c = false <-> o ∉ ids c.
Proof.
  unfold holds_id, ids. rewrite <- not_true_iff_false, existsb_exists.
  rewrite list_elem_of_fmap. split; intros H (d & H1 & H2); apply H.
  - exists d. split; [apply list_elem_of_In, H2 | apply ObjectId_eqb_eq; auto].
  - exists d. apply ObjectId_eqb_eq in H2. split; [auto|].
    apply list_elem_of_In, H1.
Qed.

Lemma first_match_appended q c d :
  first_match q c = None -> matches q d = true ->
  first_match q (c ++ [d]) = Some d.
Proof. intros H Hd. apply first_match_app; [apply first_match_None|]; auto. Qed.

(** ** signup and login *)

(** X1.  A taken username.  [signup] fails with the 400 "Username already
    exists" before it hashes the password, and changes nothing. *)
Theorem signup_taken_username pwd_context_hash generated username email
    password role w d :
  d ∈ user (db w) ->
  fields d !! "username" = Some (VStr username) ->
  signup pwd_context_hash generated username email password role w
  = (Raised Username_exists, w).
Proof.
  intros Hd Hu. rewrite signup_eval. unfold by_username.
  destruct (first_match_elem [FieldIs "username" (IsStr username)] _ d Hd)
    as [d' ->]; [|reflexivity].
  apply matches_str_field. unfold str_field. rewrite Hu. reflexivity.
Qed.

(** Sample accounts: a toy hash that keeps the scheme prefix of bcrypt. *)
Definition toy_hash (password : string) : result string :=
  Ok ("$2b$" +:+ password).

Definition toy_verify (secret hash : string) : result bool :=
  Ok (String.eqb hash ("$2b$" +:+ secret)).

Definition asha : document :=
  Document oid_a (user_fields "asha" "asha@example.org" "landlord" "$2b$tulip").

Lemma signup_taken_username_witness :
  signup toy_hash oid_b "asha" "a2@example.org" "rose" "customer"
    (world_of_users [asha])
  = (Raised Username_exists, world_of_users [asha]).
Proof.
  apply (signup_taken_username toy_hash oid_b "asha" "a2@example.org" "rose"
           "customer" (world_of_users [asha]) asha).
  - apply list_elem_of_here.
  - reflexivity.
Defined.

(** X2.  A successful [signup] appends one user document: the username and
    email as given, the hash [pwd_context.hash] returned for the password,
    and a role that is always [customer] or [landlord]: the requested
    one when it is one of the two, [customer] otherwise.  The answer
    carries that role; the other collections and the files are
    untouched. *)
Theorem signup_stores_resolved_role pwd_context_hash generated username email
    password role w body :
  fst (signup pwd_context_hash generated username email password role w)
  = Ok body ->
  exists hashed d,
    pwd_context_hash password = Ok hashed
    /\ db (snd (signup pwd_context_hash generated username email password
                  role w))
       = Database (user (db w) ++ [d]) (property (db w)) (contactmessage (db w))
    /\ files (snd (signup pwd_context_hash generated username email password
                     role w)) = files w
    /\ _id d = generated
    /\ fields d !! "username" = Some (VStr username)
    /\ fields d !! "email" = Some (VStr email)
    /\ fields d !! "hashed_password" = Some (VStr hashed)
    /\ (fields d !! "role" = Some (VStr "customer")
        \/ fields d !! "role" = Some (VStr "landlord"))
    /\ (role = "customer" \/ role = "landlord" ->
        fields d !! "role" = Some (VStr role))
    /\ (role <> "customer" -> role <> "landlord" ->
        fields d !! "role" = Some (VStr "customer"))
    /\ body !! "role" = fields d !! "role"
    /\ body !! "_id" = Some (VStr (str_ObjectId generated)).
Proof.
  rewrite signup_eval.
  destruct (by_username username (user (db w))); [discriminate|].
  destruct (pwd_context_hash password) as [hashed| |]; try discriminate.
  destruct (holds_id generated (user (db w))); [discriminate|].
  cbn [fst snd db files]. intros [= <-]. eexists hashed, _.
  split; [reflexivity|]. split; [reflexivity|]. split; [reflexivity|].
  split; [reflexivity|]. cbn [fields]. repeat split; try reflexivity.
  - unfold user_fields, resolved_role.
    destruct (String.eqb role "customer") eqn:E1; cbn [orb].
    + apply String.eqb_eq in E1 as ->. left. reflexivity.
    + destruct (String.eqb role "landlord") eqn:E2.
      * apply String.eqb_eq in E2 as ->. right. reflexivity.
      * left. reflexivity.
  - intros [-> | ->]; reflexivity.
  - intros H1 H2. unfold user_fields, resolved_role.
    apply String.eqb_neq in H1, H2. rewrite H1, H2. reflexivity.
Qed.

Lemma signup_stores_resolved_role_witness :
  exists hashed d,
    toy_hash "rose" = Ok hashed
    /\ db (snd (signup toy_hash oid_b "ravi" "r@example.org" "rose" "admin"
                  (world_of_users [asha])))
       = Database (user (db (world_of_users [asha])) ++ [d])
           (property (db (world_of_users [asha])))
           (contactmessage (db (world_of_users [asha])))
    /\ files (snd (signup toy_hash oid_b "ravi" "r@example.org" "rose" "admin"
                     (world_of_users [asha])))
       = files (world_of_users [asha])
    /\ _id d = oid_b
    /\ fields d !! "username" = Some (VStr "ravi")
    /\ fields d !! "email" = Some (VStr "r@example.org")
    /\ fields d !! "hashed_password" = Some (VStr hashed)
    /\ (fields d !! "role" = Some (VStr "customer")
        \/ fields d !! "role" = Some (VStr "landlord"))
    /\ ("admin" = "customer" \/ "admin" = "landlord" ->
        fields d !! "role" = Some (VStr "admin"))
    /\ ("admin" <> "customer" -> "admin" <> "landlord" ->
        fields d !! "role" = Some (VStr "customer"))
    /\ account oid_b "ravi" "customer" !! "role" = fields d !! "role"
    /\ account oid_b "ravi" "customer" !! "_id"
       = Some (VStr (str_ObjectId oid_b)).
Proof.
  apply (signup_stores_resolved_role toy_hash oid_b "ravi" "r@example.org"
           "rose" "admin" (world_of_users [asha])
           (account oid_b "ravi" "customer")).
  reflexivity.
Defined.

(** X3.  Signing up, then logging in.  When the hash [signup] stored is one
    bcrypt identifies and verifies against the same password, [login] with
    the same credentials answers exactly what [signup] answered: the same
    identifier, username and role. *)
Theorem signup_then_login pwd_context_hash bcrypt_verify generated username
    email password role w body :
  fst (signup pwd_context_hash generated username email password role w)
  = Ok body ->
  (forall h, pwd_context_hash password = Ok h ->
             bcrypt_identify h = true /\ bcrypt_verify password h = Ok true) ->
  login bcrypt_verify username password
    (snd (signup pwd_context_hash generated username email password role w))
  = (Ok body,
     snd (signup pwd_context_hash generated username email password role w)).
Proof.
  rewrite signup_eval.
  destruct (by_username username (user (db w))) eqn:Hnone; [discriminate|].
  destruct (pwd_context_hash password) as [hashed| |]; try discriminate.
  destruct (holds_id generated (user (db w))); [discriminate|].
  cbn [fst snd]. intros [= <-] Hlib.
  destruct (Hlib hashed eq_refl) as [Hid Hok].
  rewrite (login_bcrypt bcrypt_verify username password _
             (Document generated (user_fields username email role hashed))
             hashed).
  - rewrite Hok. reflexivity.
  - apply first_match_appended; [exact Hnone|].
    apply matches_str_field. reflexivity.
  - reflexivity.
  - exact Hid.
Qed.

Lemma signup_then_login_witness :
  login toy_verify "ravi" "rose"
    (snd (signup toy_hash oid_b "ravi" "r@example.org" "rose" "landlord"
            (world_of_users [asha])))
  = (Ok (account oid_b "ravi" "landlord"),
     snd (signup toy_hash oid_b "ravi" "r@example.org" "rose" "landlord"
            (world_of_users [asha]))).
Proof.
  apply (signup_then_login toy_hash toy_verify oid_b "ravi" "r@example.org"
           "rose" "landlord" (world_of_users [asha])
           (account oid_b "ravi" "landlord")).
  - reflexivity.
  - intros h [= <-]. split; reflexivity.
Defined.

(** X4.  [login] does not tell an unknown username from a wrong password: both
    end with the same 400 "Invalid credentials", and the world is as it
    was. *)
Theorem login_failures_look_alike bcrypt_verify username password w :
  (by_username username (user (db w)) = None ->
   login bcrypt_verify username password w = (Raised Invalid_credentials, w))
  /\ (forall u h,
        by_username username (user (db w)) = Some u ->
        fields u !! "hashed_password" = Some (VStr h) ->
        bcrypt_identify h = true ->
        bcrypt_verify password h = Ok false ->
        login bcrypt_verify username password w
        = (Raised Invalid_credentials, w)).
Proof.
  split; [apply login_unknown|]. intros u h Hu Hh Hid Hno.
  rewrite (login_bcrypt _ _ _ _ u h Hu Hh Hid), Hno. reflexivity.
Qed.

Lemma login_failures_look_alike_witness :
  login toy_verify "nobody" "tulip" (world_of_users [asha])
  = (Raised Invalid_credentials, world_of_users [asha])
  /\ login toy_verify "asha" "daisy" (world_of_users [asha])
     = (Raised Invalid_credentials, world_of_users [asha]).
Proof.
  split.
  - apply (proj1 (login_failures_look_alike toy_verify "nobody" "tulip"
                    (world_of_users [asha]))).
    reflexivity.
  - apply (proj2 (login_failures_look_alike toy_verify "asha" "daisy"
                    (world_of_users [asha])) asha "$2b$tulip"); reflexivity.
Defined.

(** X5.  [signup] keeps usernames unique: whatever the request and its
    outcome, a user collection without repeated usernames stays so. *)
Theorem signup_keeps_usernames_unique pwd_context_hash generated username
    email password role w :
  NoDup (usernames (user (db w))) ->
  NoDup (usernames
           (user (db (snd (signup pwd_context_hash generated username email
                             password role w))))).
Proof.
  intros Hnd. rewrite signup_eval.
  destruct (by_username username (user (db w))) eqn:Hnone; [exact Hnd|].
  destruct (pwd_context_hash password) as [hashed| |]; try exact Hnd.
  destruct (holds_id generated (user (db w))); [exact Hnd|].
  cbn [snd db user]. unfold usernames. rewrite omap_app.
  apply NoDup_app. split; [exact Hnd|]. split.
  - intros s Hs Hin. apply list_elem_of_singleton in Hin. subst s.
    apply first_match_None_field in Hnone. exact (Hnone Hs).
  - apply NoDup_singleton.
Qed.

Lemma signup_keeps_usernames_unique_witness :
  NoDup (usernames
           (user (db (snd (signup toy_hash oid_b "ravi" "r@example.org" "rose"
                             "landlord" (world_of_users [asha])))))).
Proof.
  apply (signup_keeps_usernames_unique toy_hash oid_b "ravi" "r@example.org"
           "rose" "landlord" (world_of_users [asha])).
  apply NoDup_singleton.
Defined.

(** ** ObjectId and its text *)

Lemma fromhex_hexlify_byte b rest :
  bytes_fromhex (hexlify [b] ++ rest) = cons b <$> bytes_fromhex rest.
Proof. destruct b; reflexivity. Qed.

Lemma fromhex_hexlify o : bytes_fromhex (hexlify o) = Some o.
Proof.
  induction o as [|b o IH]; [reflexivity|].
  change (hexlify (b :: o)) with (hexlify [b] ++ hexlify o).
  rewrite fromhex_hexlify_byte, IH. reflexivity.
Qed.

Lemma length_hexlify o : length (hexlify o) = 2 * length o.
Proof. induction o as [|b o IH]; simpl; [reflexivity | rewrite IH; lia]. Qed.

Lemma length_list_ascii s : length (list_ascii_of_string s) = String.length s.
Proof. induction s as [|c s IH]; simpl; [reflexivity | rewrite IH; reflexivity]. Qed.

(** [ObjectId(str(o)) == o] for a 12-byte [o]. *)
Lemma ObjectId_of_str_ObjectId o :
  length o = 12 -> ObjectId_of_str (str_ObjectId o) = Some o.
Proof.
  intros Hlen. unfold ObjectId_of_str, str_ObjectId.
  rewrite <- length_list_ascii, list_ascii_of_string_of_list_ascii.
  rewrite length_hexlify, Hlen. apply fromhex_hexlify.
Qed.

Lemma first_match_None_id o (c : collection) :
  first_match [IdIs o] c = None <-> holds_id o c = false.
Proof.
  rewrite first_match_None. unfold holds_id.
  induction c as [|d c IH]; cbn [existsb].
  - split; [reflexivity | constructor].
  - rewrite orb_false_iff, <- IH, Forall_cons.
    rewrite <- !not_true_iff_false, matches_id, ObjectId_eqb_eq. reflexivity.
Qed.

(** ** create, then get *)

Lemma rendered_created generated doc :
  doc !! "_id" = None ->
  rendered (Document generated doc)
  = <["_id" := VStr (str_ObjectId generated)]> doc.
Proof. intros _. unfold rendered, to_dict. simpl. apply insert_insert_eq. Qed.

(** X6.  A created property can be fetched back.  After a successful create,
    [get] with the text of the new store identifier answers the document
    the create answered, and so does [get] with the [property_id], as
    long as that [property_id] is not itself valid identifier syntax. *)
Theorem create_then_get cwd may_open generated property_id title city locality
    rent_price area_sqft furnishing contact_details owner_id image w body :
  fst (create_property cwd may_open generated property_id title city locality
         rent_price area_sqft furnishing contact_details owner_id image w)
  = Ok body ->
  length generated = 12 ->
  get_property (str_ObjectId generated)
    (snd (create_property cwd may_open generated property_id title city locality
            rent_price area_sqft furnishing contact_details owner_id image w))
  = (Ok body,
     snd (create_property cwd may_open generated property_id title city locality
            rent_price area_sqft furnishing contact_details owner_id image w))
  /\ (ObjectId_of_str property_id = None ->
      get_property property_id
        (snd (create_property cwd may_open generated property_id title city locality
                rent_price area_sqft furnishing contact_details owner_id
                image w))
      = (Ok body,
         snd (create_property cwd may_open generated property_id title city locality
                rent_price area_sqft furnishing contact_details owner_id
                image w))).
Proof.
  rewrite create_property_eval. cbv zeta.
  destruct (image_opens may_open cwd property_id image); [|discriminate].
  destruct (by_property_id property_id (property (db w))) eqn:Hpid;
    [discriminate|].
  destruct (int64 area_sqft); [|discriminate].
  destruct (holds_id generated (property (db w))) eqn:Hid; [discriminate|].
  cbn [fst snd]. intros [= <-] Hlen. rewrite !get_property_eval.
  cbn [db property]. unfold resolve.
  rewrite (ObjectId_of_str_ObjectId _ Hlen). split.
  - rewrite first_match_appended.
    + rewrite rendered_created by reflexivity. reflexivity.
    + apply first_match_None_id, Hid.
    + apply matches_id. reflexivity.
  - intros ->. unfold by_property_id. rewrite first_match_appended.
    + rewrite rendered_created by reflexivity. reflexivity.
    + exact Hpid.
    + apply matches_property_id. reflexivity.
Qed.

Lemma create_then_get_witness :
  get_property (str_ObjectId oid_b)
    (snd (create_property "/srv/app" srv oid_b "P-002" "Loft" "Pune" "Aundh" 9000
            400 "furnished" "mail" "u9" None (world_of [listing "P-001"])))
  = (Ok (rendered loft),
     snd (create_property "/srv/app" srv oid_b "P-002" "Loft" "Pune" "Aundh" 9000
            400 "furnished" "mail" "u9" None (world_of [listing "P-001"])))
  /\ (ObjectId_of_str "P-002" = None ->
      get_property "P-002"
        (snd (create_property "/srv/app" srv oid_b "P-002" "Loft" "Pune" "Aundh"
                9000 400 "furnished" "mail" "u9" None
                (world_of [listing "P-001"])))
      = (Ok (rendered loft),
         snd (create_property "/srv/app" srv oid_b "P-002" "Loft" "Pune" "Aundh"
                9000 400 "furnished" "mail" "u9" None
                (world_of [listing "P-001"])))).
Proof.
  apply (create_then_get "/srv/app" srv oid_b "P-002" "Loft" "Pune" "Aundh" 9000
           400 "furnished" "mail" "u9" None (world_of [listing "P-001"])
           (rendered loft)).
  - reflexivity.
  - reflexivity.
Defined.

(** ** Unique keys *)

(** No two stored properties share a store identifier or a
    [property_id]. *)
Definition unique_keys (c : collection) : Prop :=
  NoDup (ids c) /\ NoDup (property_ids c).

Lemma delete_first_app q pre d post :
  Forall (fun x => matches q x = false) pre -> matches q d = true ->
  delete_first q (pre ++ d :: post) = pre ++ post.
Proof.
  intros Hpre Hd. induction Hpre as [|x pre Hx _ IH]; simpl.
  - rewrite Hd. reflexivity.
  - rewrite Hx, IH. reflexivity.
Qed.

Lemma NoDup_remove_middle {A} (l1 l2 : list A) x :
  NoDup (l1 ++ x :: l2) -> NoDup (l1 ++ l2) /\ x ∉ l1 ++ l2.
Proof.
  rewrite !NoDup_app, NoDup_cons. intros (H1 & H12 & Hx & H2). split.
  - split; [assumption|]. split; [|assumption].
    intros y Hy Hy2. apply (H12 y Hy). right. assumption.
  - rewrite elem_of_app. intros [H|H]; [|contradiction].
    apply (H12 x H). left.
Qed.

Lemma omap_cons_eq {A B} (f : A -> option B) x (l : list A) :
  omap f (x :: l) = from_option (fun y => [y]) [] (f x) ++ omap f l.
Proof. unfold omap; simpl. destruct (f x); reflexivity. Qed.

Lemma ids_update_first q updates (c : collection) :
  ids (update_first q (set_fields updates) c) = ids c.
Proof.
  unfold ids. induction c as [|d c IH]; [reflexivity|]. cbn [update_first].
  destruct (matches q d); rewrite !fmap_cons; [reflexivity|].
  rewrite IH. reflexivity.
Qed.

Lemma str_field_set_fields k updates d :
  updates !! k = None -> str_field k (set_fields updates d) = str_field k d.
Proof.
  intros H. unfold str_field, set_fields; simpl.
  rewrite lookup_union_r by assumption. reflexivity.
Qed.

Lemma property_ids_update_first q updates (c : collection) :
  updates !! "property_id" = None ->
  property_ids (update_first q (set_fields updates) c) = property_ids c.
Proof.
  intros H. unfold property_ids. induction c as [|d c IH]; [reflexivity|].
  cbn [update_first]. destruct (matches q d).
  - rewrite !(omap_cons_eq _ _ c), str_field_set_fields by assumption.
    reflexivity.
  - rewrite !omap_cons_eq, IH. reflexivity.
Qed.

Lemma unique_keys_updated prop_id updates w :
  updates !! "property_id" = None ->
  unique_keys (property (db w)) ->
  unique_keys (property (db (updated_world prop_id updates w))).
Proof.
  intros Hpid [Hids Hpids]. unfold unique_keys. simpl.
  rewrite ids_update_first, property_ids_update_first by assumption.
  split; assumption.
Qed.

Lemma supplied_fields_no_key title city locality rent_price area_sqft
    furnishing contact_details image_url :
  supplied_fields title city locality rent_price area_sqft furnishing
    contact_details image_url !! "property_id" = None.
Proof.
  apply supplied_fields_other.
  apply (bool_decide_unpack _); vm_compute; exact I.
Qed.

Lemma unique_keys_deleted q (c : collection) d :
  first_match q c = Some d ->
  unique_keys c ->
  exists pre post,
    c = pre ++ d :: post /\ delete_first q c = pre ++ post
    /\ unique_keys (pre ++ post)
    /\ (_id d ∉ ids (pre ++ post))
    /\ (forall s, str_field "property_id" d = Some s ->
                  s ∉ property_ids (pre ++ post)).
Proof.
  intros Hfound [Hids Hpids].
  destruct (first_match_split _ _ _ Hfound) as (pre & post & -> & Hpre & Hd).
  exists pre, post. split; [reflexivity|].
  split; [apply delete_first_app; assumption|].
  unfold ids in *. rewrite fmap_app, fmap_cons in Hids.
  apply NoDup_remove_middle in Hids as [Hids Hid].
  unfold property_ids in *. rewrite omap_app in Hpids.
  unfold unique_keys, ids, property_ids. rewrite fmap_app, omap_app.
  destruct (str_field "property_id" d) as [s|] eqn:Hs.
  - replace (omap (str_field "property_id") (d :: post))
      with (s :: omap (str_field "property_id") post) in Hpids
      by (rewrite omap_cons_eq, Hs; reflexivity).
    apply NoDup_remove_middle in Hpids as [Hpids Hpid].
    repeat split; try assumption. intros s' [= <-]. assumption.
  - replace (omap (str_field "property_id") (d :: post))
      with (omap (str_field "property_id") post) in Hpids
      by (rewrite omap_cons_eq, Hs; reflexivity).
    repeat split; try assumption. discriminate.
Qed.

(** X7.  The property handlers keep keys unique.  If no two stored properties
    share an [_id] or a [property_id], that still holds after any create,
    update, delete or contact request, whatever its outcome. *)
Theorem handlers_keep_keys_unique cwd may_open generated prop_id property_id
    title city locality rent_price area_sqft furnishing contact_details
    owner_id title' city' locality' rent_price' area_sqft' furnishing'
    contact_details' image payload w :
  unique_keys (property (db w)) ->
  unique_keys
    (property (db (snd (create_property cwd may_open generated property_id
                          title city locality rent_price area_sqft furnishing
                          contact_details owner_id image w))))
  /\ unique_keys
       (property (db (snd (update_property cwd may_open prop_id title' city'
                             locality' rent_price' area_sqft' furnishing'
                             contact_details' image w))))
  /\ unique_keys (property (db (snd (delete_property prop_id w))))
  /\ unique_keys
       (property (db (snd (contact_owner generated prop_id payload w)))).
Proof.
  intros Hu. split; [|split; [|split]].
  - rewrite create_property_eval. cbv zeta.
    destruct (image_opens may_open cwd property_id image); [|exact Hu].
    destruct (by_property_id property_id (property (db w))) eqn:Hpid;
      [exact Hu|].
    destruct (int64 area_sqft); [|exact Hu].
    destruct (holds_id generated (property (db w))) eqn:Hid; [exact Hu|].
    cbn [snd db property]. destruct Hu as [Hids Hpids].
    unfold unique_keys, ids, property_ids. rewrite fmap_app, omap_app.
    split; apply NoDup_app.
    + split; [assumption|]. split; [|apply NoDup_singleton].
      intros o Ho Hin. apply list_elem_of_singleton in Hin. subst o.
      apply holds_id_false in Hid. exact (Hid Ho).
    + split; [assumption|]. split; [|apply NoDup_singleton].
      intros s Hs Hin. apply list_elem_of_singleton in Hin. subst s.
      apply first_match_None_field in Hpid. exact (Hpid Hs).
  - destruct (resolve prop_id (property (db w))) as [existing|] eqn:Hr.
    + rewrite (update_property_found _ _ _ _ _ _ _ _ _ _ _ _ _ Hr).
      destruct image as [img|]; cbv zeta.
      * destruct (owner_key existing prop_id); [|exact Hu].
        destruct (may_open _); [|exact Hu].
        destruct (area_fits area_sqft'); [|exact Hu].
        cbn [snd]. apply unique_keys_updated;
          [apply supplied_fields_no_key | exact Hu].
      * destruct (size _ =? 0)%nat; [exact Hu|].
        destruct (area_fits area_sqft'); [|exact Hu].
        cbn [snd]. apply unique_keys_updated;
          [apply supplied_fields_no_key | exact Hu].
    + rewrite update_property_missing by assumption. exact Hu.
  - rewrite delete_property_eval.
    destruct (resolve prop_id (property (db w))) as [d|] eqn:Hr; [|exact Hu].
    cbn [snd db property set_collection]. rewrite <- first_match_resolved in Hr.
    destruct (unique_keys_deleted _ _ _ Hr Hu) as (pre & post & _ & -> & H & _).
    exact H.
  - rewrite contact_owner_eval.
    destruct (resolve prop_id (property (db w))); [|exact Hu].
    destruct (holds_id generated (contactmessage (db w))); exact Hu.
Qed.

Lemma handlers_keep_keys_unique_witness :
  unique_keys
    (property (db (snd (create_property "/srv/app" srv oid_b "P-002" "Loft" "Pune"
                          "Aundh" 9000 400 "furnished" "mail" "u9" None
                          (world_of [listing "P-001"])))))
  /\ unique_keys
       (property (db (snd (update_property "/srv/app" srv "P-001" None None None
                             (Some 5000%float) None None None None
                             (world_of [listing "P-001"])))))
  /\ unique_keys
       (property (db (snd (delete_property "P-001"
                             (world_of [listing "P-001"])))))
  /\ unique_keys
       (property (db (snd (contact_owner oid_b "P-001" enquiry
                             (world_of [listing "P-001"]))))).
Proof.
  apply (handlers_keep_keys_unique "/srv/app" srv oid_b "P-001" "P-002" "Loft"
           "Pune" "Aundh" 9000 400 "furnished" "mail" "u9" None None None
           (Some 5000%float) None None None None enquiry
           (world_of [listing "P-001"])).
  split; apply NoDup_singleton.
Defined.

(** ** delete *)

Definition Deleted : dict := {["deleted" := VBool true]}.

Lemma resolve_after_delete prop_id (c : collection) d :
  unique_keys c ->
  resolve prop_id c = Some d ->
  resolve prop_id (delete_first (resolved_query prop_id) c) = None.
Proof.
  intros Hu Hr. destruct (resolve_sound _ _ _ Hr) as [_ Hkey].
  rewrite <- first_match_resolved in Hr.
  destruct (unique_keys_deleted _ _ _ Hr Hu)
    as (pre & post & _ & -> & _ & Hid & Hpid).
  unfold resolve, by_property_id.
  destruct (ObjectId_of_str prop_id) as [o|].
  - subst o. apply first_match_None_id, holds_id_false, Hid.
  - apply first_match_None_field, Hpid. unfold str_field. rewrite Hkey.
    reflexivity.
Qed.

(** X8.  Deleting a property.  With unique keys, a delete that resolves removes
    that one property and nothing else: the other properties keep their
    order, users, contact messages (no cascade) and files are untouched.
    A second delete of the same identifier, and a get, then fail with
    NotFound. *)
Theorem delete_removes_once prop_id w d :
  unique_keys (property (db w)) ->
  resolve prop_id (property (db w)) = Some d ->
  fst (delete_property prop_id w) = Ok Deleted
  /\ (exists pre post,
        property (db w) = pre ++ d :: post
        /\ property (db (snd (delete_property prop_id w))) = pre ++ post)
  /\ user (db (snd (delete_property prop_id w))) = user (db w)
  /\ contactmessage (db (snd (delete_property prop_id w)))
     = contactmessage (db w)
  /\ files (snd (delete_property prop_id w)) = files w
  /\ delete_property prop_id (snd (delete_property prop_id w))
     = (Raised Property_not_found, snd (delete_property prop_id w))
  /\ get_property prop_id (snd (delete_property prop_id w))
     = (Raised Property_not_found, snd (delete_property prop_id w)).
Proof.
  intros Hu Hr. rewrite !(delete_property_eval prop_id w), Hr.
  cbn [fst snd]. split; [reflexivity|]. split.
  { rewrite <- first_match_resolved in Hr.
    destruct (unique_keys_deleted _ _ _ Hr Hu) as (pre & post & H1 & H2 & _).
    exists pre, post. split; [exact H1 | exact H2]. }
  split; [reflexivity|]. split; [reflexivity|]. split; [reflexivity|].
  rewrite delete_property_eval, get_property_eval. cbn [db property set_collection].
  rewrite (resolve_after_delete _ _ _ Hu Hr). split; reflexivity.
Qed.

Definition two_listings : world := world_of [listing "P-001"; loft].

Lemma delete_removes_once_witness :
  fst (delete_property "P-001" two_listings) = Ok Deleted
  /\ (exists pre post,
        property (db two_listings) = pre ++ listing "P-001" :: post
        /\ property (db (snd (delete_property "P-001" two_listings)))
           = pre ++ post)
  /\ user (db (snd (delete_property "P-001" two_listings)))
     = user (db two_listings)
  /\ contactmessage (db (snd (delete_property "P-001" two_listings)))
     = contactmessage (db two_listings)
  /\ files (snd (delete_property "P-001" two_listings)) = files two_listings
  /\ delete_property "P-001" (snd (delete_property "P-001" two_listings))
     = (Raised Property_not_found, snd (delete_property "P-001" two_listings))
  /\ get_property "P-001" (snd (delete_property "P-001" two_listings))
     = (Raised Property_not_found, snd (delete_property "P-001" two_listings)).
Proof.
  apply (delete_removes_once "P-001" two_listings (listing "P-001")).
  - split; (apply NoDup_cons; split;
            [ intros H; apply list_elem_of_singleton in H; discriminate H
            | apply NoDup_singleton ]).
  - reflexivity.
Defined.

(** ** Failed lookups and reads change nothing *)

(** X9.  NotFound has no side effect: when get, update, delete or contact fails
    with NotFound, the world is exactly as before; in particular an update
    that carries an image writes no file for a property it does not
    find. *)
Theorem not_found_changes_nothing cwd may_open generated prop_id title city
    locality rent_price area_sqft furnishing contact_details image payload w :
  (fst (get_property prop_id w) = Raised Property_not_found ->
   snd (get_property prop_id w) = w)
  /\ (fst (update_property cwd may_open prop_id title city locality rent_price
             area_sqft furnishing contact_details image w)
      = Raised Property_not_found ->
      snd (update_property cwd may_open prop_id title city locality rent_price
             area_sqft furnishing contact_details image w) = w)
  /\ (fst (delete_property prop_id w) = Raised Property_not_found ->
      snd (delete_property prop_id w) = w)
  /\ (fst (contact_owner generated prop_id payload w)
      = Raised Property_not_found ->
      snd (contact_owner generated prop_id payload w) = w).
Proof.
  rewrite get_property_eval, delete_property_eval, contact_owner_eval.
  destruct (resolve prop_id (property (db w))) as [d|] eqn:Hr.
  - rewrite (update_property_found _ _ _ _ _ _ _ _ _ _ _ _ _ Hr).
    repeat split; try discriminate.
    + destruct image as [img|]; cbv zeta.
      * destruct (owner_key d prop_id); [|discriminate].
        destruct (may_open _); [|discriminate].
        destruct (area_fits area_sqft); discriminate.
      * destruct (size _ =? 0)%nat; [discriminate|].
        destruct (area_fits area_sqft); discriminate.
    + destruct (holds_id generated _); discriminate.
  - rewrite update_property_missing by assumption. repeat split.
Qed.

Lemma not_found_changes_nothing_witness :
  snd (update_property "/srv/app" srv "P-404" None None None None None None None
         (Some photo) (world_of [listing "P-001"]))
  = world_of [listing "P-001"].
Proof.
  apply (proj1 (proj2 (not_found_changes_nothing "/srv/app" srv oid_b "P-404"
                         None None None None None None None (Some photo)
                         enquiry (world_of [listing "P-001"])))).
  reflexivity.
Defined.

(** ** list_properties in general *)

(** The query [list_properties] builds. *)
Definition list_query (q city furnishing : option string)
    (min_price max_price : option float) : query :=
  let query : query := [] in
  let query :=
    match nonempty q with
    | Some q =>
        query ++ [AnyOf [("title", Regex q "i"); ("city", Regex q "i");
                          ("locality", Regex q "i")]]
    | None => query
    end in
  let query :=
    match nonempty city with
    | Some city => query ++ [FieldIs "city" (Regex city "i")]
    | None => query
    end in
  let query :=
    match nonempty furnishing with
    | Some furnishing => query ++ [FieldIs "furnishing" (IsStr furnishing)]
    | None => query
    end in
  match min_price, max_price with
  | None, None => query
  | _, _ => query ++ [FieldIs "rent_price" (Between min_price max_price)]
  end.

Lemma check_query_cases q w :
  check_query q w = (Ok tt, w) \/ check_query q w = (Raised OperationFailure, w)
  \/ check_query q w = (Unmodelled, w).
Proof.
  unfold check_query. destruct (existsb is_bad _); [right; left; reflexivity|].
  destruct (existsb is_unmodelled _); [right; right|left]; reflexivity.
Qed.

Lemma int64_limit limit : (0 <= limit < 2 ^ 63)%Z -> int64 limit = true.
Proof.
  intros H. unfold int64. apply andb_true_iff.
  split; [apply Z.leb_le | apply Z.ltb_lt]; lia.
Qed.

Lemma list_properties_run q city furnishing min_price max_price limit w :
  check_query (list_query q city furnishing min_price max_price) w = (Ok tt, w) ->
  (0 <= limit < 2 ^ 63)%Z ->
  list_properties q city furnishing min_price max_price limit w
  = (Ok (rendered <$>
           apply_limit limit
             (filter (fun d => matches (list_query q city furnishing
                                          min_price max_price) d)
                (property (db w)))),
     w).
Proof.
  intros Hcheck Hlimit.
  change (list_properties q city furnishing min_price max_price limit)
    with (docs <- find c_property
                    (list_query q city furnishing min_price max_price) limit ;;
          stringify_each docs).
  unfold bind at 1, find.
  replace (limit <? 0)%Z with false by (symmetry; apply Z.ltb_ge, Hlimit).
  rewrite (int64_limit _ Hlimit). cbn [negb].
  unfold bind at 1. rewrite Hcheck. cbv beta iota.
  apply stringify_each_stored.
Qed.

Lemma list_properties_cases q city furnishing min_price max_price limit w :
  list_properties q city furnishing min_price max_price limit w
  = if (limit <? 0)%Z then (Unmodelled, w)
    else if int64 limit
    then
      match fst (check_query
                   (list_query q city furnishing min_price max_price) w) with
      | Ok _ =>
          (Ok (rendered <$>
                 apply_limit limit
                   (filter (fun d => matches (list_query q city furnishing
                                                min_price max_price) d)
                      (property (db w)))),
           w)
      | Raised e => (Raised e, w)
      | Unmodelled => (Unmodelled, w)
      end
    else (Raised OverflowError, w).
Proof.
  change (list_properties q city furnishing min_price max_price limit)
    with (docs <- find c_property
                    (list_query q city furnishing min_price max_price) limit ;;
          stringify_each docs).
  unfold bind at 1, find.
  destruct (limit <? 0)%Z; [reflexivity|].
  destruct (int64 limit); [|reflexivity]. cbn [negb]. unfold bind at 1.
  destruct (check_query_cases
              (list_query q city furnishing min_price max_price) w)
    as [-> | [-> | ->]]; try reflexivity.
  cbv beta iota. cbn [fst]. apply stringify_each_stored.
Qed.

(** X10.  A listing with a limit of 0 or more that succeeds returns
    stored properties only, in store order, each with its [_id] as text,
    never more than a non-zero [limit] of them, and leaves the world as it
    was.  (A listing whose [q] or [city] is a pattern outside the modelled
    fragment has no outcome here, and is not covered.) *)
Theorem list_returns_stored_properties q city furnishing min_price max_price
    limit w items :
  (0 <= limit)%Z ->
  fst (list_properties q city furnishing min_price max_price limit w)
  = Ok items ->
  exists ds,
    ds `sublist_of` property (db w)
    /\ items = rendered <$> ds
    /\ (limit <> 0%Z -> (Z.of_nat (length items) <= limit)%Z)
    /\ snd (list_properties q city furnishing min_price max_price limit w) = w.
Proof.
  intros Hlimit. rewrite list_properties_cases.
  destruct (limit <? 0)%Z eqn:Hneg; [discriminate|].
  destruct (int64 limit); [|discriminate].
  destruct (fst (check_query _ w)); try discriminate.
  cbn [fst snd]. intros [= <-].
  eexists. split; [|split; [reflexivity|split; [|reflexivity]]].
  - unfold apply_limit. destruct (limit =? 0)%Z.
    + apply sublist_filter.
    + etransitivity; [apply sublist_take | apply sublist_filter].
  - intros Hnz. rewrite length_fmap. unfold apply_limit.
    apply Z.eqb_neq in Hnz. rewrite Hnz. rewrite length_take. lia.
Qed.

Lemma list_returns_stored_properties_witness :
  exists ds,
    ds `sublist_of` property (db two_listings)
    /\ [rendered (listing "P-001")] = rendered <$> ds
    /\ (1%Z <> 0%Z -> (Z.of_nat (length [rendered (listing "P-001")]) <= 1)%Z)
    /\ snd (list_properties (Some "pune") None None None None 1 two_listings)
       = two_listings.
Proof.
  apply (list_returns_stored_properties (Some "pune") None None None None 1
           two_listings [rendered (listing "P-001")]).
  - lia.
  - reflexivity.
Defined.



Lemma matches_app q1 q2 d : matches (q1 ++ q2) d = matches q1 d && matches q2 d.
Proof. unfold matches. apply forallb_app. Qed.


Lemma matches_cons c q d : matches (c :: q) d = clause_holds d c && matches q d.
Proof. reflexivity. Qed.


Lemma clause_field d k c : clause_holds d (FieldIs k c) = holds c (fields d !! k).
Proof. reflexivity. Qed.

Lemma holds_Between mn mx v :
  holds (Between mn mx) v
  = match v with
    | Some price =>
        bound_ok (fun b => num_leb b price) mn
        && bound_ok (fun b => num_leb price b) mx
    | None => false
    end.
Proof. destruct v; reflexivity. Qed.





Example list_filters_combine_run :
  fst (list_properties (Some "pUn") (Some "") (Some "furnished")
         (Some 9000%float) (Some 9000%float) 0 two_listings)
  = Ok [rendered loft].
Proof. reflexivity. Qed.

(** X12.  The price bounds are inclusive.  A listing by [min_price] and
    [max_price] alone (neither a NaN, no limit) returns the stored
    properties, and among those whose [rent_price] is a number [x] it
    returns exactly the ones with [min_price <= x <= max_price]. *)
Theorem list_price_bounds_inclusive mn mx w :
  PrimFloat.is_nan mn = false ->
  PrimFloat.is_nan mx = false ->
  exists ds,
    list_properties None None None (Some mn) (Some mx) 0 w
    = (Ok (rendered <$> ds), w)
    /\ forall d x,
         fields d !! "rent_price" = Some (VFloat x) ->
         PrimFloat.is_nan x = false ->
         (d ∈ ds <->
          d ∈ property (db w)
          /\ PrimFloat.leb mn x = true /\ PrimFloat.leb x mx = true).
Proof.
  intros Hmn Hmx.
  exists (filter (fun d => matches (list_query None None None (Some mn) (Some mx)) d)
            (property (db w))).
  split.
  - apply (list_properties_run None None None (Some mn) (Some mx) 0 w);
      [reflexivity | lia].
  - intros d x Hprice Hx. rewrite list_elem_of_filter.
    unfold list_query. cbn [nonempty app]. rewrite matches_cons, clause_field.
    rewrite holds_Between, Hprice. cbn [bound_ok num_leb].
    rewrite Hmn, Hx. change (matches [] d) with true.
    rewrite andb_true_r, Is_true_true, andb_true_iff. tauto.
Qed.

Definition at_price (x : float) (o : ObjectId) (pid : string) : document :=
  Document o
    (created_fields pid "Flat" "Pune" "Baner" x 500 "semi" "call" "u1" VNone).

Lemma list_price_bounds_inclusive_witness :
  exists ds,
    list_properties None None None (Some 1000%float) (Some 2000%float) 0
      (world_of [at_price 1000 oid_a "P-1"; at_price 2000.5 oid_b "P-2"])
    = (Ok (rendered <$> ds),
       world_of [at_price 1000 oid_a "P-1"; at_price 2000.5 oid_b "P-2"])
    /\ forall d x,
         fields d !! "rent_price" = Some (VFloat x) ->
         PrimFloat.is_nan x = false ->
         (d ∈ ds <->
          d ∈ property
                (db (world_of [at_price 1000 oid_a "P-1";
                               at_price 2000.5 oid_b "P-2"]))
          /\ PrimFloat.leb 1000 x = true /\ PrimFloat.leb x 2000 = true).
Proof.
  apply (list_price_bounds_inclusive 1000 2000
           (world_of [at_price 1000 oid_a "P-1"; at_price 2000.5 oid_b "P-2"]));
    reflexivity.
Defined.

Example list_price_boundary :
  fst (list_properties None None None (Some 1000%float) (Some 2000%float) 0
         (world_of [at_price 1000 oid_a "P-1"; at_price 2000.5 oid_b "P-2"]))
  = Ok [rendered (at_price 1000 oid_a "P-1")].
Proof. reflexivity. Qed.

(** X13.  The reading handlers write nothing: whatever the request and its
    outcome, [get_property], [list_properties] and [login] leave the
    document store and the files as they were. *)
Theorem reads_change_nothing bcrypt_verify prop_id q city furnishing min_price
    max_price limit username password w :
  snd (get_property prop_id w) = w
  /\ snd (list_properties q city furnishing min_price max_price limit w) = w
  /\ snd (login bcrypt_verify username password w) = w.
Proof.
  split; [|split].
  - rewrite get_property_eval.
    destruct (resolve prop_id (property (db w))); reflexivity.
  - rewrite list_properties_cases.
    destruct (limit <? 0)%Z; [reflexivity|].
    destruct (int64 limit); [|reflexivity].
    destruct (fst (check_query _ w)); reflexivity.
  - unfold login, bind at 1. rewrite find_one_username. cbv beta iota.
    destruct (by_username username (user (db w))) as [u|];
      cbn [fmap option_fmap option_map]; [|reflexivity].
    rewrite falsy_to_dict. cbn [default from_option id]. unfold bind.
    assert (Hv : forall v, snd (pwd_context_verify bcrypt_verify password v w) = w).
    { intros v. unfold pwd_context_verify.
      destruct v; try reflexivity. destruct (bcrypt_identify s); reflexivity. }
    specialize (Hv (default (VStr "") (to_dict u !! "hashed_password"))).
    destruct (pwd_context_verify _ _ _ w) as [[[]| |] w']; cbn [snd] in Hv;
      subst w'; try reflexivity.
    cbn [negb]. destruct (to_dict u !! "_id") as [i|]; [|reflexivity].
    destruct (to_dict u !! "username"); [|reflexivity].
    destruct (format_value i); reflexivity.
Qed.

(** ** Uploaded images *)

Lemma supplied_image_url title city locality rent_price area_sqft furnishing
    contact_details url :
  supplied_fields title city locality rent_price area_sqft furnishing
    contact_details (Some url) !! "image_url" = Some (VStr url).
Proof. rewrite <- updates_with_image. apply lookup_insert_eq. Qed.

(** X14.  An update that carries an image, on a property whose stored
    [property_id] is the text [pid].  When the host lets the file named
    after [pid] and the upload's file name be opened, the bytes are
    written to it, whichever identifier the request used, and nothing
    else is written; the stored [image_url] then becomes the public path
    of that file, unless an [area_sqft] that does not fit in 8 bytes
    stops the update after the write.  When the host refuses, the request
    raises and changes nothing. *)
Theorem update_stores_image cwd may_open prop_id title city locality rent_price
    area_sqft furnishing contact_details img w existing pid :
  resolve prop_id (property (db w)) = Some existing ->
  fields existing !! "property_id" = Some (VStr pid) ->
  (may_open (os_path_join (UPLOAD_DIR cwd)
               (pid +:+ "_" +:+ format_opt (filename img))) = true ->
   files (snd (update_property cwd may_open prop_id title city locality
                 rent_price area_sqft furnishing contact_details (Some img) w))
   = <[os_path_join (UPLOAD_DIR cwd)
         (pid +:+ "_" +:+ format_opt (filename img))
       := content img]> (files w)
   /\ (area_fits area_sqft = true ->
       exists d',
         resolve prop_id
           (property (db (snd (update_property cwd may_open prop_id title city
                                 locality rent_price area_sqft furnishing
                                 contact_details (Some img) w))))
         = Some d'
         /\ fields d' !! "image_url"
            = Some (VStr ("/uploads/" +:+ pid +:+ "_"
                          +:+ format_opt (filename img))))
   /\ (area_fits area_sqft = false ->
       fst (update_property cwd may_open prop_id title city locality
              rent_price area_sqft furnishing contact_details (Some img) w)
       = Raised OverflowError
       /\ db (snd (update_property cwd may_open prop_id title city locality
                     rent_price area_sqft furnishing contact_details
                     (Some img) w))
          = db w))
  /\ (may_open (os_path_join (UPLOAD_DIR cwd)
                  (pid +:+ "_" +:+ format_opt (filename img))) = false ->
      update_property cwd may_open prop_id title city locality rent_price
        area_sqft furnishing contact_details (Some img) w
      = (Raised OSError, w)).
Proof.
  intros Hr Hpid. rewrite (update_property_found _ _ _ _ _ _ _ _ _ _ _ _ _ Hr).
  unfold owner_key. rewrite Hpid. cbn [default from_option id format_value].
  cbv zeta.
  change (os_path_join (UPLOAD_DIR cwd)
            (pid +:+ "_" +:+ format_opt (filename img)))
    with (upload_path cwd pid img).
  split; intros ->; [|reflexivity].
  split; [destruct (area_fits area_sqft); reflexivity|].
  split; intros ->; [|split; reflexivity].
  cbn [snd]. eexists. split.
  - apply resolve_updated; [exact Hr | apply supplied_fields_no_key].
  - unfold set_fields; cbn [fields]. rewrite lookup_union, supplied_image_url.
    destruct (fields existing !! "image_url"); reflexivity.
Qed.

Lemma update_stores_image_witness :
  files (snd (update_property "/srv/app" srv "0123456789abcdef01234567" None None
                None None None None None (Some photo)
                (world_of [listing "P-001"])))
  = <[os_path_join (UPLOAD_DIR "/srv/app")
        ("P-001" +:+ "_" +:+ format_opt (filename photo))
      := content photo]> (files (world_of [listing "P-001"]))
  /\ exists d',
       resolve "0123456789abcdef01234567"
         (property (db (snd (update_property "/srv/app" srv
                               "0123456789abcdef01234567" None None None None
                               None None None (Some photo)
                               (world_of [listing "P-001"]))))) = Some d'
       /\ fields d' !! "image_url"
          = Some (VStr ("/uploads/" +:+ "P-001" +:+ "_"
                        +:+ format_opt (filename photo))).
Proof.
  split.
  - apply (proj1 (update_stores_image "/srv/app" srv
                    "0123456789abcdef01234567" None None None None None None
                    None photo (world_of [listing "P-001"]) (listing "P-001")
                    "P-001" eq_refl eq_refl)).
    reflexivity.
  - apply (proj1 (update_stores_image "/srv/app" srv
                    "0123456789abcdef01234567" None None None None None None
                    None photo (world_of [listing "P-001"]) (listing "P-001")
                    "P-001" eq_refl eq_refl));
      reflexivity.
Defined.

Lemma created_files cwd may_open generated property_id title city locality
    rent_price area_sqft furnishing contact_details owner_id img w :
  may_open (upload_path cwd property_id img) = true ->
  files (snd (create_property cwd may_open generated property_id title city
                locality rent_price area_sqft furnishing contact_details
                owner_id (Some img) w))
  = <[upload_path cwd property_id img := content img]> (files w).
Proof.
  intros Hopen. rewrite create_property_eval. cbv zeta.
  cbn [image_opens]. rewrite Hopen.
  destruct (by_property_id property_id (property (db w))); [reflexivity|].
  destruct (int64 area_sqft); [|reflexivity].
  destruct (holds_id generated (property (db w))); reflexivity.
Qed.

(** X15.  Upload names can collide.  The file of an upload is named
    [property_id_filename], so the property [p] with the file name [q_f]
    and the property [p_q] with the file name [f] share one file: when
    the host lets that file be opened, after the two create requests,
    whatever their outcomes, the file the first one wrote holds the bytes
    of the second. *)
Theorem upload_names_collide cwd may_open g1 g2 p q f bytes1 bytes2
    title1 city1 locality1 rent_price1 area_sqft1 furnishing1 contact1 owner1
    title2 city2 locality2 rent_price2 area_sqft2 furnishing2 contact2 owner2
    w :
  may_open (os_path_join (UPLOAD_DIR cwd) (p +:+ "_" +:+ q +:+ "_" +:+ f))
  = true ->
  files (snd (create_property cwd may_open g1 p title1 city1 locality1
                rent_price1 area_sqft1 furnishing1 contact1 owner1
                (Some (Upload (Some (q +:+ "_" +:+ f)) bytes1)) w))
  !! os_path_join (UPLOAD_DIR cwd) (p +:+ "_" +:+ q +:+ "_" +:+ f)
  = Some bytes1
  /\ files (snd (create_property cwd may_open g2 (p +:+ "_" +:+ q) title2 city2
                   locality2 rent_price2 area_sqft2 furnishing2 contact2
                   owner2 (Some (Upload (Some f) bytes2))
                   (snd (create_property cwd may_open g1 p title1 city1
                           locality1 rent_price1 area_sqft1 furnishing1
                           contact1 owner1
                           (Some (Upload (Some (q +:+ "_" +:+ f)) bytes1))
                           w))))
     !! os_path_join (UPLOAD_DIR cwd) (p +:+ "_" +:+ q +:+ "_" +:+ f)
     = Some bytes2.
Proof.
  intros Hopen.
  assert (H1 : upload_path cwd p (Upload (Some (q +:+ "_" +:+ f)) bytes1)
               = os_path_join (UPLOAD_DIR cwd) (p +:+ "_" +:+ q +:+ "_" +:+ f))
    by reflexivity.
  assert (H2 : upload_path cwd (p +:+ "_" +:+ q) (Upload (Some f) bytes2)
               = os_path_join (UPLOAD_DIR cwd) (p +:+ "_" +:+ q +:+ "_" +:+ f)).
  { unfold upload_path, upload_name.
    cbn [filename format_opt default from_option id].
    rewrite !append_assoc. reflexivity. }
  rewrite !created_files by (rewrite ?H1, ?H2; exact Hopen).
  rewrite H1, H2. cbn [content]. split; apply lookup_insert_eq.
Qed.

Lemma upload_names_collide_witness :
  files (snd (create_property "/srv/app" srv oid_a "P" "Flat" "Pune" "Baner"
                1000 500 "semi" "call" "u1"
                (Some (Upload (Some ("Q" +:+ "_" +:+ "f.png")) [x01]))
                (world_of [])))
  !! os_path_join (UPLOAD_DIR "/srv/app") ("P" +:+ "_" +:+ "Q" +:+ "_" +:+ "f.png")
  = Some [x01]
  /\ files (snd (create_property "/srv/app" srv oid_b ("P" +:+ "_" +:+ "Q")
                   "Loft" "Pune" "Aundh" 9000 400 "furnished" "mail" "u9"
                   (Some (Upload (Some "f.png") [x02]))
                   (snd (create_property "/srv/app" srv oid_a "P" "Flat" "Pune"
                           "Baner" 1000 500 "semi" "call" "u1"
                           (Some (Upload (Some ("Q" +:+ "_" +:+ "f.png")) [x01]))
                           (world_of [])))))
     !! os_path_join (UPLOAD_DIR "/srv/app") ("P" +:+ "_" +:+ "Q" +:+ "_" +:+ "f.png")
     = Some [x02].
Proof.
  apply (upload_names_collide "/srv/app" srv oid_a oid_b "P" "Q" "f.png" [x01]
           [x02] "Flat" "Pune" "Baner" 1000 500 "semi" "call" "u1" "Loft"
           "Pune" "Aundh" 9000 400 "furnished" "mail" "u9" (world_of [])).
  reflexivity.
Defined.



(** ** update, then get; what a contact message records *)

(** X17.  An update that changed something can be read back: [get] with the same
    identifier answers the document the update answered. *)
Theorem update_then_get cwd may_open prop_id title city locality rent_price
    area_sqft furnishing contact_details image w body :
  fst (update_property cwd may_open prop_id title city locality rent_price
         area_sqft furnishing contact_details image w) = Ok body ->
  body <> No_changes ->
  get_property prop_id
    (snd (update_property cwd may_open prop_id title city locality rent_price
            area_sqft furnishing contact_details image w))
  = (Ok body,
     snd (update_property cwd may_open prop_id title city locality rent_price
            area_sqft furnishing contact_details image w)).
Proof.
  destruct (resolve prop_id (property (db w))) as [existing|] eqn:Hr.
  - rewrite (update_property_found _ _ _ _ _ _ _ _ _ _ _ _ _ Hr).
    destruct image as [img|]; cbv zeta.
    + destruct (owner_key existing prop_id); [|discriminate].
      destruct (may_open _); [|discriminate].
      destruct (area_fits area_sqft); [|discriminate].
      cbn [fst snd]. intros [= <-] _. rewrite get_property_eval.
      rewrite (resolve_updated prop_id _ _ existing);
        [reflexivity | exact Hr | apply supplied_fields_no_key].
    + destruct (size _ =? 0)%nat.
      * cbn [fst]. intros [= <-] Hne. destruct Hne. reflexivity.
      * destruct (area_fits area_sqft); [|discriminate].
        cbn [fst snd]. intros [= <-] _. rewrite get_property_eval.
        rewrite (resolve_updated prop_id _ _ existing);
          [reflexivity | exact Hr | apply supplied_fields_no_key].
  - rewrite update_property_missing by assumption. discriminate.
Qed.

Lemma update_then_get_witness :
  get_property "P-001" (snd (rent_only (world_of [listing "P-001"])))
  = (Ok (rendered (Document oid_a
                     (created_fields "P-001" "Garden flat" "Pune" "Baner" 5000
                        650 "semi" "call 555-0100" "u42" VNone))),
     snd (rent_only (world_of [listing "P-001"]))).
Proof.
  apply (update_then_get "/srv/app" srv "P-001" None None None (Some 5000%float)
           None None None None (world_of [listing "P-001"])).
  - reflexivity.
  - intros H. apply (f_equal (fun m : dict => m !! "message")) in H.
    discriminate H.
Defined.

(** X18.  What a contact message records.  The stored message is the request
    body, field by field: its [property_id] is the one written in the
    body, whatever identifier the request addressed, and [created_at] is
    null unless the body gave one. *)
Theorem contact_records_payload generated prop_id payload w body :
  fst (contact_owner generated prop_id payload w) = Ok body ->
  exists m,
    contactmessage (db (snd (contact_owner generated prop_id payload w)))
    = contactmessage (db w) ++ [m]
    /\ _id m = generated
    /\ fields m !! "property_id" = Some (VStr (cm_property_id payload))
    /\ fields m !! "sender_id" = Some (VStr (sender_id payload))
    /\ fields m !! "sender_name" = Some (VStr (sender_name payload))
    /\ fields m !! "sender_email" = Some (VStr (sender_email payload))
    /\ fields m !! "message" = Some (VStr (message payload))
    /\ fields m !! "created_at"
       = Some (from_option VDatetime VNone (cm_created_at payload))
    /\ property (db (snd (contact_owner generated prop_id payload w)))
       = property (db w).
Proof.
  rewrite contact_owner_eval.
  destruct (resolve prop_id (property (db w))); [|discriminate].
  destruct (holds_id generated (contactmessage (db w))); [discriminate|].
  intros _. cbn [snd db contactmessage property]. eexists.
  split; [reflexivity|]. repeat split.
Qed.

Definition misfiled : ContactMessage :=
  Contact "P-999" "u7" "Asha" "asha@example.org" "Is it still available?"
    (Some 1700000000%Z).

Lemma contact_records_payload_witness :
  exists m,
    contactmessage
      (db (snd (contact_owner oid_b "P-001" misfiled
                  (world_of [listing "P-001"]))))
    = contactmessage (db (world_of [listing "P-001"])) ++ [m]
    /\ _id m = oid_b
    /\ fields m !! "property_id" = Some (VStr (cm_property_id misfiled))
    /\ fields m !! "sender_id" = Some (VStr (sender_id misfiled))
    /\ fields m !! "sender_name" = Some (VStr (sender_name misfiled))
    /\ fields m !! "sender_email" = Some (VStr (sender_email misfiled))
    /\ fields m !! "message" = Some (VStr (message misfiled))
    /\ fields m !! "created_at"
       = Some (from_option VDatetime VNone (cm_created_at misfiled))
    /\ property (db (snd (contact_owner oid_b "P-001" misfiled
                            (world_of [listing "P-001"]))))
       = property (db (world_of [listing "P-001"])).
Proof.
  apply (contact_records_payload oid_b "P-001" misfiled
           (world_of [listing "P-001"]) {["sent" := VBool true]}).
  reflexivity.
Defined.
